(** * display.c: the screen-rotation demo of the SSD1306 I2C driver

    A shallow embedding of [main] of [C/display.c] and the properties of its
    argument scan, rotation list, start-up sequence and rotation loop.

    The driver itself ([ssd1306_i2c.h]: [load_display_config],
    [ssd1306_begin], the global [i2cd], [FirstGetIpAddress],
    [LCD_DisplayHostname], [LCD_Display]) is not part of the translation
    unit.  Calls into it are recorded as events of a trace; the two results
    [main] reads back (the loader's status and configuration, and [i2cd]) are
    supplied by a [Driver] record. *)

From Stdlib Require Import ZArith Lia Ascii String List Sorted.
From stdpp Require Import base list strings.

Local Open Scope Z_scope.

(** ** Data *)

(** [struct DisplayConfig]: four flags, each tested for truth only. *)
Record DisplayConfig := mkDisplayConfig {
  show_temperature : bool;
  show_cpu_memory : bool;
  show_sd_memory : bool;
  show_hostname : bool
}.

(** [struct DisplayConfig config = {1,1,1,1};] (line 19). *)
Definition default_config : DisplayConfig := mkDisplayConfig true true true true.

(** What [main] consumes from [ssd1306_i2c.h].  The two macros are opaque
    integers; [load_display_config path config debug] yields the returned
    status and the contents of [*config] after the call; [ssd1306_begin]
    yields the value the call leaves in the global [i2cd]. *)
Record Driver := mkDriver {
  SSD1306_SWITCHCAPVCC : Z;
  SSD1306_I2C_ADDRESS : Z;
  load_display_config : string -> DisplayConfig -> bool -> bool * DisplayConfig;
  ssd1306_begin : Z -> Z -> Z
}.

(** Everything [main] does that is visible outside its registers: the calls
    it makes, in order, and its accesses to the local array
    [display_order]. *)
Inductive event :=
| Call_load_display_config (path : string) (debug : bool)
| Call_printf (text : string)
| Store_display_order (i v : Z)
| Call_ssd1306_begin (vccstate i2caddr : Z)
| Call_usleep (usec : Z)
| Call_FirstGetIpAddress
| Call_LCD_DisplayHostname
| Call_sleep (seconds : Z)
| Load_display_order (i : Z)
| Call_LCD_Display (screen : Z).

(** How a piece of [main] ends: it falls through with a value, executes
    [return code;], does something C leaves undefined (an access outside
    [display_order], a read of a cell never written, signed overflow,
    remainder by zero), or is still running when the iteration budget of the
    model is used up. *)
Inductive result (A : Type) :=
| Next (a : A)
| Return (code : Z)
| Fault
| OutOfFuel.
Arguments Next {A} a.
Arguments Return {A} code.
Arguments Fault {A}.
Arguments OutOfFuel {A}.

Record prog (A : Type) := Prog { trace : list event; outcome : result A }.
Arguments Prog {A} trace outcome.
Arguments trace {A} p.
Arguments outcome {A} p.

#[global] Instance prog_ret : MRet prog := fun A a => Prog [] (Next a).

#[global] Instance prog_bind : MBind prog := fun A B f m =>
  match outcome m with
  | Next a => Prog (trace m ++ trace (f a)) (outcome (f a))
  | Return code => Prog (trace m) (Return code)
  | Fault => Prog (trace m) Fault
  | OutOfFuel => Prog (trace m) OutOfFuel
  end.

Definition emit (e : event) : prog unit := Prog [e] (Next tt).
Definition c_return {A} (code : Z) : prog A := Prog [] (Return code).
Definition fault {A} : prog A := Prog [] Fault.

(** ** [int] arithmetic *)

Definition INT_MAX : Z := 2147483647.

(** [n + 1] on [int]: overflow is undefined. *)
Definition int_succ (n : Z) : prog Z :=
  if n <? INT_MAX then mret (n + 1) else fault.

(** [a % b] on [int]: truncated remainder, undefined for [b = 0]. *)
Definition int_rem (a b : Z) : prog Z :=
  if b =? 0 then fault else mret (Z.rem a b).

(** ** [int display_order[4]] *)

(** A cell is [None] until it is first assigned. *)
Abbreviation array := (list (option Z)).

Definition display_order_init : array := replicate 4 None.

Definition in_bounds (i : Z) : bool := (0 <=? i) && (i <? 4).

(** [display_order[i] = v;] *)
Definition store (a : array) (i v : Z) : prog array :=
  _ ← emit (Store_display_order i v);
  if in_bounds i then mret (<[Z.to_nat i := Some v]> a) else fault.

(** [display_order[i]] as an rvalue. *)
Definition load (a : array) (i : Z) : prog Z :=
  _ ← emit (Load_display_order i);
  if in_bounds i then
    match a !! Z.to_nat i with
    | Some (Some v) => mret v
    | _ => fault
    end
  else fault.

(** ** Lines 13-18: the argument scan *)

(** [strcmp(arg, "-d") == 0 || strcmp(arg, "--debug") == 0] *)
Definition is_debug_arg (arg : string) : bool :=
  String.eqb arg "-d" || String.eqb arg "--debug".

(** The body of the [for] loop over the arguments still to be visited,
    threading the local [debug]. *)
Fixpoint scan_args (args : list string) (debug : bool) : bool :=
  match args with
  | [] => debug
  | arg :: rest => scan_args rest (if is_debug_arg arg then true else debug)
  end.

(** [bool debug = false; for (int i = 1; i < argc; ++i) ...]: [argv] holds
    the [argc] argument strings and the scan starts at index 1. *)
Definition debug_flag (argv : list string) : bool :=
  scan_args (drop 1 argv) false.

(** ** Lines 19-28: configuration and rotation list *)

Definition config_path : string := "display.cfg".

Definition newline : string := String "010"%char EmptyString.
Definition crlf : string := String "013"%char newline.

Definition warning_text : string :=
  ("Warning: Could not load display_config.yaml, using defaults." +:+ newline)%string.

Definition i2c_error_text : string :=
  ("I2C device failed to open" +:+ crlf)%string.

(** Lines 22-24. *)
Definition load_config (drv : Driver) (debug : bool) : prog DisplayConfig :=
  _ ← emit (Call_load_display_config config_path debug);
  let '(ok, config) := load_display_config drv config_path default_config debug in
  _ ← (if negb ok then emit (Call_printf warning_text) else mret tt);
  mret config.

(** [if (flag) display_order[display_count++] = screen;] *)
Definition append_if (flag : bool) (screen : Z) (st : array * Z) : prog (array * Z) :=
  if flag then
    let '(display_order, display_count) := st in
    display_order' ← store display_order display_count screen;
    display_count' ← int_succ display_count;
    mret (display_order', display_count')
  else mret st.

(** Lines 20-21 and 25-28. *)
Definition build_display_order (config : DisplayConfig) : prog (array * Z) :=
  st ← append_if (show_temperature config) 0 (display_order_init, 0);
  st ← append_if (show_cpu_memory config) 1 st;
  st ← append_if (show_sd_memory config) 2 st;
  append_if (show_hostname config) 3 st.

(** ** Lines 42-50: the rotation loop *)

(** Lines 45-49: one pass through the body, yielding the next [idx]. *)
Definition loop_body (display_order : array) (display_count idx : Z) : prog Z :=
  screen ← load display_order idx;
  _ ← emit (Call_LCD_Display screen);
  _ ← emit (Call_sleep 1);
  _ ← emit (Call_sleep 1);
  _ ← emit (Call_sleep 1);
  next ← int_succ idx;
  int_rem next display_count.

(** [while (display_count > 0) { ... }], run for at most [fuel] passes. *)
Fixpoint rotation_loop (fuel : nat) (display_order : array) (display_count idx : Z)
  : prog unit :=
  if 0 <? display_count then
    match fuel with
    | O => Prog [] OutOfFuel
    | S fuel' =>
        idx' ← loop_body display_order display_count idx;
        rotation_loop fuel' display_order display_count idx'
    end
  else mret tt.

(** ** [main] *)

(** The global [i2cd] as [main] finds it on line 31, after the call on
    line 30. *)
Definition i2cd (drv : Driver) : Z :=
  ssd1306_begin drv (SSD1306_SWITCHCAPVCC drv) (SSD1306_I2C_ADDRESS drv).

(** Lines 30-41: driver start-up, up to the hostname splash. *)
Definition start_display (drv : Driver) (config : DisplayConfig) : prog unit :=
  _ ← emit (Call_ssd1306_begin (SSD1306_SWITCHCAPVCC drv) (SSD1306_I2C_ADDRESS drv));
  _ ← (if i2cd drv <? 0 then
         _ ← emit (Call_printf i2c_error_text); c_return 0
       else mret tt);
  _ ← emit (Call_usleep (150 * 1000));
  _ ← emit Call_FirstGetIpAddress;
  if show_hostname config then
    _ ← emit Call_LCD_DisplayHostname; emit (Call_sleep 3)
  else mret tt.

(** The whole of [main]; [fuel] bounds the passes through the [while] loop.
    The unused local [symbol] (line 29) is left out. *)
Definition main (fuel : nat) (drv : Driver) (argv : list string) : prog unit :=
  let debug := debug_flag argv in
  config ← load_config drv debug;
  '(display_order, display_count) ← build_display_order config;
  _ ← start_display drv config;
  _ ← rotation_loop fuel display_order display_count 0;
  c_return 0.

(** A driver for examples.  Its loader succeeds with the configuration
    [file] when there is one, and otherwise fails and leaves [*config] as it
    was passed in; [ssd1306_begin] leaves [fd] in [i2cd]. *)
Definition sample_driver (file : option DisplayConfig) (fd : Z) : Driver :=
  mkDriver 2 60
    (fun _ config _ => match file with Some c => (true, c) | None => (false, config) end)
    (fun _ _ => fd).

(** ** Reading a trace *)

(** The screens handed to [LCD_Display], in order. *)
Definition renders (t : list event) : list Z :=
  omap (fun e => match e with Call_LCD_Display s => Some s | _ => None end) t.

(** The indices at which [display_order] was read, in order. *)
Definition cursor_reads (t : list event) : list Z :=
  omap (fun e => match e with Load_display_order i => Some i | _ => None end) t.

Definition is_render (e : event) : bool :=
  match e with
  | Call_LCD_Display _ | Call_LCD_DisplayHostname => true
  | _ => false
  end.

Definition is_hostname_render (e : event) : bool :=
  match e with Call_LCD_DisplayHostname => true | _ => false end.

Definition is_warning (e : event) : bool :=
  match e with Call_printf text => String.eqb text warning_text | _ => false end.

Definition is_ip_resolution (e : event) : bool :=
  match e with Call_FirstGetIpAddress => true | _ => false end.

Definition is_store (e : event) : bool :=
  match e with Store_display_order _ _ => true | _ => false end.

Definition is_begin (e : event) : bool :=
  match e with Call_ssd1306_begin _ _ => true | _ => false end.

Definition is_load_config (e : event) : bool :=
  match e with Call_load_display_config _ _ => true | _ => false end.

(** How many events of [t] satisfy [p]. *)
Definition occurrences (p : event -> bool) (t : list event) : nat :=
  length (List.filter p t).

(** Position of the first event of [t] that satisfies [p]. *)
Fixpoint first_index (p : event -> bool) (t : list event) : option nat :=
  match t with
  | [] => None
  | e :: t' => if p e then Some O else S <$> first_index p t'
  end.

(** In [t] an event satisfying [p] occurs, and the first such event comes
    before the first event satisfying [q]. *)
Definition precedes (p q : event -> bool) (t : list event) : Prop :=
  exists i j, first_index p t = Some i /\ first_index q t = Some j /\ (i < j)%nat.

(** Every access to [display_order] recorded in [t] uses an index that
    [ok] accepts. *)
Definition accesses_within (ok : Z -> Prop) (t : list event) : Prop :=
  Forall (fun e => match e with
                   | Store_display_order i _ | Load_display_order i => ok i
                   | _ => True
                   end) t.

(** The time a call keeps the thread asleep, in microseconds; every other
    event is taken to be instantaneous. *)
Definition pause_usec (e : event) : Z :=
  match e with
  | Call_sleep s => s * 1000000
  | Call_usleep u => u
  | _ => 0
  end.

Definition elapsed_usec (t : list event) : Z :=
  foldr (fun e acc => pause_usec e + acc) 0 t.

Definition is_pause (e : event) : bool :=
  match e with Call_sleep _ | Call_usleep _ => true | _ => false end.

(** What an observer with a clock sees: each event other than a pause,
    with the time on the clock (started at [now]) when it happens. *)
Fixpoint timeline (now : Z) (t : list event) : list (Z * event) :=
  match t with
  | [] => []
  | e :: t' =>
      if is_pause e then timeline (now + pause_usec e) t'
      else (now, e) :: timeline now t'
  end.

(** The times at which [LCD_Display] is called, on a clock started at
    [now]. *)
Definition render_times (now : Z) (t : list event) : list Z :=
  omap (fun '(time, e) => match e with Call_LCD_Display _ => Some time | _ => None end)
       (timeline now t).

(** Two programs that an observer with a clock cannot tell apart: they end
    the same way, show the same events at the same times, and take the same
    time overall. *)
Definition same_timeline {A} (p q : prog A) : Prop :=
  outcome p = outcome q /\
  elapsed_usec (trace p) = elapsed_usec (trace q) /\
  forall now, timeline now (trace p) = timeline now (trace q).

(** ** The rotation policy in the words of the specification *)

(** The flag that governs a screen identifier: temperature=0, cpu_memory=1,
    sd_memory=2, hostname=3. *)
Definition screen_enabled (config : DisplayConfig) (screen : Z) : bool :=
  match screen with
  | 0 => show_temperature config
  | 1 => show_cpu_memory config
  | 2 => show_sd_memory config
  | 3 => show_hostname config
  | _ => false
  end.

(** "The fixed order {0,1,2,3} filtered by the flags." *)
Definition enabled_screens (config : DisplayConfig) : list Z :=
  List.filter (screen_enabled config) [0; 1; 2; 3].

(** [display_order] is a four-cell array whose first [display_count] cells
    hold exactly the list [l]. *)
Definition rotation (display_order : array) (display_count : Z) (l : list Z) : Prop :=
  length display_order = 4%nat /\
  display_count = Z.of_nat (length l) /\
  take (length l) display_order = Some <$> l.

(** The events of one pass of the loop with the cursor at position [i] of
    the rotation list [l]. *)
Definition pass_trace (l : list Z) (i : nat) : list event :=
  match l !! i with
  | Some s => [Load_display_order (Z.of_nat i); Call_LCD_Display s;
               Call_sleep 1; Call_sleep 1; Call_sleep 1]
  | None => []
  end.

(** The events of [fuel] consecutive passes over [l] from cursor [start]:
    pass number [k] has the cursor at [(start + k) mod length l]. *)
Definition passes (l : list Z) (start fuel : nat) : list event :=
  concat ((fun k => pass_trace l ((start + k) mod length l)%nat) <$> seq 0 fuel).

(** The events a pass of the loop can produce over the list [l]. *)
Definition is_pass_event (l : list Z) (e : event) : Prop :=
  match e with
  | Load_display_order i => 0 <= i < Z.of_nat (length l)
  | Call_LCD_Display s => s ∈ l
  | Call_sleep s => s = 1
  | _ => False
  end.

(** The loop body with "one parameterized delay call" in place of the three
    [sleep(1)] calls. *)
Definition loop_body_single_pause (display_order : array) (display_count idx : Z)
  : prog Z :=
  screen ← load display_order idx;
  _ ← emit (Call_LCD_Display screen);
  _ ← emit (Call_sleep 3);
  next ← int_succ idx;
  int_rem next display_count.

Fixpoint rotation_loop_single_pause (fuel : nat) (display_order : array)
    (display_count idx : Z) : prog unit :=
  if 0 <? display_count then
    match fuel with
    | O => Prog [] OutOfFuel
    | S fuel' =>
        idx' ← loop_body_single_pause display_order display_count idx;
        rotation_loop_single_pause fuel' display_order display_count idx'
    end
  else mret tt.

(** Modelled from the spec: the body of [load_display_config] is missing
    from the sources ([main] only calls it).  The specification says of it
    that it "returns a success/failure indicator and leaves defaults in place
    on failure": whenever it reports failure, [*config] is what the caller
    passed in. *)
Definition leaves_defaults_on_failure (drv : Driver) : Prop :=
  forall path config debug,
    fst (load_display_config drv path config debug) = false ->
    snd (load_display_config drv path config debug) = config.

(** ** Names for the pieces of a run *)

Definition load_ok (drv : Driver) (argv : list string) : bool :=
  fst (load_display_config drv config_path default_config (debug_flag argv)).

(** [config] as it stands after line 22. *)
Definition loaded_config (drv : Driver) (argv : list string) : DisplayConfig :=
  snd (load_display_config drv config_path default_config (debug_flag argv)).

(** [display_order] and [display_count] once lines 25-28 have run. *)
Definition filled_array (config : DisplayConfig) : array :=
  (Some <$> enabled_screens config) ++
  replicate (4 - length (enabled_screens config)) None.

Definition filled_count (config : DisplayConfig) : Z :=
  Z.of_nat (length (enabled_screens config)).

(** The events of lines 22-24, of lines 25-28, of line 30 and of lines
    38-41. *)
Definition load_events (drv : Driver) (argv : list string) : list event :=
  Call_load_display_config config_path (debug_flag argv) ::
  (if load_ok drv argv then [] else [Call_printf warning_text]).

Definition store_events (config : DisplayConfig) : list event :=
  imap (fun k s => Store_display_order (Z.of_nat k) s) (enabled_screens config).

Definition begin_event (drv : Driver) : event :=
  Call_ssd1306_begin (SSD1306_SWITCHCAPVCC drv) (SSD1306_I2C_ADDRESS drv).

Definition splash_events (config : DisplayConfig) : list event :=
  if show_hostname config then [Call_LCD_DisplayHostname; Call_sleep 3] else [].

(** More readers of a trace. *)
Definition is_printf (e : event) : bool :=
  match e with Call_printf _ => true | _ => false end.

Definition is_i2c_error (e : event) : bool :=
  match e with Call_printf text => String.eqb text i2c_error_text | _ => false end.

Definition is_usleep (e : event) : bool :=
  match e with Call_usleep _ => true | _ => false end.

Definition is_load (e : event) : bool :=
  match e with Load_display_order _ => true | _ => false end.

Example main_two_screens :
  main 3 (sample_driver (Some (mkDisplayConfig true false true false)) 3) ["display"%string]
  = Prog [Call_load_display_config config_path false;
          Store_display_order 0 0; Store_display_order 1 2;
          Call_ssd1306_begin 2 60; Call_usleep 150000; Call_FirstGetIpAddress;
          Load_display_order 0; Call_LCD_Display 0; Call_sleep 1; Call_sleep 1; Call_sleep 1;
          Load_display_order 1; Call_LCD_Display 2; Call_sleep 1; Call_sleep 1; Call_sleep 1;
          Load_display_order 0; Call_LCD_Display 0; Call_sleep 1; Call_sleep 1; Call_sleep 1]
         OutOfFuel.
Proof. reflexivity. Qed.

(** ** The monad *)

Lemma bind_next {A B} (m : prog A) (f : A -> prog B) a :
  outcome m = Next a ->
  m ≫= f = Prog (trace m ++ trace (f a)) (outcome (f a)).
Proof. intros H. unfold mbind, prog_bind. by rewrite H. Qed.

Lemma bind_return {A B} (m : prog A) code :
  m ≫= (fun _ => c_return code) =
  Prog (trace m)
       (match outcome m with
        | Next _ => Return code
        | Return code' => @Return B code'
        | Fault => Fault
        | OutOfFuel => OutOfFuel
        end).
Proof.
  unfold mbind, prog_bind. destruct (outcome m); simpl; by rewrite ?app_nil_r.
Qed.

(** ** The rotation list *)

Lemma build_display_order_eq config :
  build_display_order config =
  Prog (imap (fun i v => Store_display_order (Z.of_nat i) v) (enabled_screens config))
       (Next (filled_array config, filled_count config)).
Proof. destruct config as [[] [] [] []]; reflexivity. Qed.

Lemma enabled_screens_length config : (length (enabled_screens config) <= 4)%nat.
Proof. destruct config as [[] [] [] []]; simpl; lia. Qed.

Lemma enabled_screens_NoDup config : NoDup (enabled_screens config).
Proof.
  destruct config as [[] [] [] []];
    apply (bool_decide_unpack _); vm_compute; reflexivity.
Qed.

Lemma rotation_filled config :
  rotation (filled_array config) (filled_count config) (enabled_screens config).
Proof. destruct config as [[] [] [] []]; repeat split. Qed.

Lemma rotation_bound a n l : rotation a n l -> (length l <= 4)%nat.
Proof.
  intros (Ha & _ & Ht).
  apply (f_equal length) in Ht. rewrite length_take, length_fmap in Ht. lia.
Qed.

Lemma rotation_lookup a n l i s :
  rotation a n l -> l !! i = Some s -> a !! i = Some (Some s).
Proof.
  intros (_ & _ & Ht) Hs.
  pose proof (lookup_lt_Some _ _ _ Hs) as Hi.
  rewrite <- (lookup_take_lt a (length l) i) by lia.
  rewrite Ht, list_lookup_fmap, Hs. done.
Qed.

(** ** One pass of the loop *)

Lemma in_bounds_spec i : in_bounds i = true <-> 0 <= i < 4.
Proof. unfold in_bounds. rewrite andb_true_iff, Z.leb_le, Z.ltb_lt. done. Qed.

Lemma next_cursor (i len : nat) :
  (i < len)%nat ->
  Z.rem (Z.of_nat i + 1) (Z.of_nat len) = Z.of_nat (S i mod len).
Proof.
  intros Hi. rewrite Z.rem_mod_nonneg by lia.
  replace (Z.of_nat i + 1) with (Z.of_nat (S i)) by lia.
  symmetry. apply Nat2Z.inj_mod.
Qed.

Lemma loop_body_eq a n l i s :
  rotation a n l -> l !! i = Some s ->
  loop_body a n (Z.of_nat i) =
  Prog [Load_display_order (Z.of_nat i); Call_LCD_Display s;
        Call_sleep 1; Call_sleep 1; Call_sleep 1]
       (Next (Z.of_nat (S i mod length l))).
Proof.
  intros Hr Hs.
  pose proof (rotation_bound _ _ _ Hr) as Hb.
  pose proof (lookup_lt_Some _ _ _ Hs) as Hi.
  pose proof (rotation_lookup _ _ _ _ _ Hr Hs) as Ha.
  destruct Hr as (_ & -> & _).
  unfold loop_body, load, int_succ, int_rem.
  assert (in_bounds (Z.of_nat i) = true) as -> by (apply in_bounds_spec; lia).
  rewrite Nat2Z.id, Ha.
  assert ((Z.of_nat i <? INT_MAX) = true) as -> by (apply Z.ltb_lt; unfold INT_MAX; lia).
  cbn.
  assert ((Z.of_nat (length l) =? 0) = false) as -> by (apply Z.eqb_neq; lia).
  rewrite next_cursor by done. reflexivity.
Qed.

(** ** The loop *)

Lemma passes_front l i fuel :
  (i < length l)%nat ->
  passes l i (S fuel) = pass_trace l i ++ passes l (S i mod length l) fuel.
Proof.
  intros Hi. unfold passes.
  rewrite <- cons_seq, fmap_cons, concat_cons, Nat.add_0_r, Nat.mod_small by done.
  f_equal. f_equal.
  rewrite <- fmap_S_seq, <- list_fmap_compose.
  apply list_fmap_ext. intros _ k _. simpl. f_equal.
  rewrite Nat.Div0.add_mod_idemp_l. f_equal. lia.
Qed.

Lemma passes_back l i fuel :
  passes l i (S fuel) = passes l i fuel ++ pass_trace l ((i + fuel) mod length l)%nat.
Proof.
  unfold passes. rewrite seq_S, fmap_app, concat_app. simpl.
  by rewrite app_nil_r.
Qed.

Lemma rotation_loop_eq a n l fuel : forall i,
  rotation a n l -> (i < length l)%nat ->
  rotation_loop fuel a n (Z.of_nat i) = Prog (passes l i fuel) OutOfFuel.
Proof.
  induction fuel as [|fuel IH]; intros i Hr Hi.
  - simpl. destruct Hr as (_ & -> & _).
    by assert ((0 <? Z.of_nat (length l)) = true) as -> by (apply Z.ltb_lt; lia).
  - destruct (lookup_lt_is_Some_2 l i Hi) as [s Hs].
    rewrite passes_front by done.
    cbn [rotation_loop].
    rewrite (loop_body_eq _ _ _ _ _ Hr Hs).
    pose proof Hr as (_ & Hn & _).
    assert ((0 <? n) = true) as -> by (apply Z.ltb_lt; lia).
    rewrite (bind_next _ _ (Z.of_nat (S i mod length l))) by done.
    rewrite IH by (done || apply Nat.mod_upper_bound; lia).
    unfold pass_trace. by rewrite Hs.
Qed.

Lemma pass_trace_eq l j :
  (0 < length l)%nat ->
  exists s, l !! (j mod length l)%nat = Some s /\
    pass_trace l (j mod length l) =
    [Load_display_order (Z.of_nat (j mod length l)); Call_LCD_Display s;
     Call_sleep 1; Call_sleep 1; Call_sleep 1].
Proof.
  intros Hl.
  destruct (lookup_lt_is_Some_2 l (j mod length l)) as [s Hs].
  { apply Nat.mod_upper_bound. lia. }
  exists s. split; [done|]. unfold pass_trace. by rewrite Hs.
Qed.

Lemma passes_cursor l i fuel :
  (0 < length l)%nat ->
  cursor_reads (passes l i fuel) =
  (fun k => Z.of_nat ((i + k) mod length l)) <$> seq 0 fuel.
Proof.
  intros Hl. induction fuel as [|fuel IH]; [done|].
  rewrite passes_back, seq_S, fmap_app. unfold cursor_reads in *.
  rewrite omap_app, IH. f_equal.
  destruct (pass_trace_eq l (i + fuel) Hl) as (s & _ & ->). done.
Qed.

Lemma passes_renders l i fuel :
  (0 < length l)%nat ->
  Some <$> renders (passes l i fuel) =
  (fun k => l !! ((i + k) mod length l)%nat) <$> seq 0 fuel.
Proof.
  intros Hl. induction fuel as [|fuel IH]; [done|].
  rewrite passes_back, seq_S, fmap_app. unfold renders in *.
  rewrite omap_app, fmap_app, IH. f_equal.
  destruct (pass_trace_eq l (i + fuel) Hl) as (s & Hs & ->). simpl. by rewrite Hs.
Qed.

Lemma passes_render_at l fuel k :
  (0 < length l)%nat -> (k < fuel)%nat ->
  renders (passes l 0 fuel) !! k = l !! (k mod length l)%nat.
Proof.
  intros Hl Hk.
  pose proof (f_equal (fun x => x !! k) (passes_renders l 0 fuel Hl)) as H.
  simpl in H. rewrite !list_lookup_fmap, lookup_seq_lt in H by done. simpl in H.
  destruct (renders (passes l 0 fuel) !! k); simpl in H; congruence.
Qed.

Lemma passes_renders_length l i fuel :
  (0 < length l)%nat -> length (renders (passes l i fuel)) = fuel.
Proof.
  intros Hl.
  pose proof (f_equal length (passes_renders l i fuel Hl)) as H.
  by rewrite !length_fmap, length_seq in H.
Qed.

Lemma passes_window l fuel m :
  (0 < length l)%nat -> (m * length l + length l <= fuel)%nat ->
  take (length l) (drop (m * length l) (renders (passes l 0 fuel))) = l.
Proof.
  intros Hl Hm. apply list_eq. intros j.
  destruct (decide (j < length l)%nat) as [Hj|Hj].
  - rewrite lookup_take_lt, lookup_drop, passes_render_at by lia.
    f_equal. rewrite Nat.add_comm, Nat.Div0.mod_add. by apply Nat.mod_small.
  - rewrite lookup_take_ge by lia. symmetry. apply lookup_ge_None. lia.
Qed.

Lemma enabled_screens_elem config s :
  s ∈ enabled_screens config <-> screen_enabled config s = true.
Proof.
  unfold enabled_screens. rewrite list_elem_of_In, filter_In.
  split; [tauto|]. intros H. split; [|done].
  unfold screen_enabled in H.
  repeat match type of H with
         | context [match ?x with _ => _ end] => is_var x; destruct x
         end; simpl; (discriminate || tauto).
Qed.

Lemma enabled_screens_sorted config : StronglySorted Z.lt (enabled_screens config).
Proof.
  destruct config as [[] [] [] []]; cbn;
    repeat (constructor; try lia).
Qed.

Lemma passes_events l i fuel :
  (0 < length l)%nat -> Forall (is_pass_event l) (passes l i fuel).
Proof.
  intros Hl. induction fuel as [|fuel IH]; [constructor|].
  rewrite passes_back. apply Forall_app. split; [done|].
  destruct (pass_trace_eq l (i + fuel) Hl) as (s & Hs & ->).
  pose proof (lookup_lt_Some _ _ _ Hs).
  repeat constructor; simpl; try lia.
  by eapply list_elem_of_lookup_2.
Qed.

(** ** Counting events *)

Lemma occurrences_app p t1 t2 :
  occurrences p (t1 ++ t2) = (occurrences p t1 + occurrences p t2)%nat.
Proof. unfold occurrences. by rewrite List.filter_app, length_app. Qed.

Lemma occurrences_none p t :
  Forall (fun e => p e = false) t -> occurrences p t = 0%nat.
Proof.
  unfold occurrences. induction 1 as [|e t He _ IH]; [done|].
  simpl. by rewrite He.
Qed.

Lemma passes_occurrences p l i fuel :
  (0 < length l)%nat ->
  (forall e, is_pass_event l e -> p e = false) ->
  occurrences p (passes l i fuel) = 0%nat.
Proof.
  intros Hl Hp. apply occurrences_none.
  eapply Forall_impl; [by apply passes_events|done].
Qed.

Lemma store_events_occurrences p config :
  (forall i v, p (Store_display_order i v) = false) ->
  occurrences p (store_events config) = 0%nat.
Proof.
  intros Hp. apply occurrences_none.
  destruct config as [[] [] [] []]; cbn; repeat constructor; apply Hp.
Qed.

(** ** [main], piece by piece *)

Lemma load_config_eq drv argv :
  load_config drv (debug_flag argv) =
  Prog (load_events drv argv) (Next (loaded_config drv argv)).
Proof.
  unfold load_config, load_events, load_ok, loaded_config.
  destruct (load_display_config drv config_path default_config (debug_flag argv))
    as [[] config]; reflexivity.
Qed.

Lemma start_display_failed drv config :
  i2cd drv < 0 ->
  start_display drv config =
  Prog [begin_event drv; Call_printf i2c_error_text] (Return 0).
Proof.
  intros H. unfold start_display.
  assert ((i2cd drv <? 0) = true) as -> by (by apply Z.ltb_lt).
  reflexivity.
Qed.

Lemma start_display_opened drv config :
  0 <= i2cd drv ->
  start_display drv config =
  Prog ([begin_event drv; Call_usleep 150000; Call_FirstGetIpAddress] ++
        splash_events config) (Next tt).
Proof.
  intros H. unfold start_display, splash_events.
  assert ((i2cd drv <? 0) = false) as -> by (apply Z.ltb_ge; lia).
  destruct (show_hostname config); reflexivity.
Qed.

Lemma main_i2c_failed fuel drv argv :
  i2cd drv < 0 ->
  main fuel drv argv =
  Prog (load_events drv argv ++ store_events (loaded_config drv argv) ++
        [begin_event drv; Call_printf i2c_error_text]) (Return 0).
Proof.
  intros H. unfold main.
  rewrite load_config_eq.
  rewrite (bind_next _ _ (loaded_config drv argv)) by done.
  rewrite build_display_order_eq.
  cbn [trace outcome mbind prog_bind].
  rewrite (start_display_failed _ _ H). reflexivity.
Qed.

Lemma main_i2c_opened fuel drv argv :
  0 <= i2cd drv ->
  let config := loaded_config drv argv in
  let loop := rotation_loop fuel (filled_array config) (filled_count config) 0 in
  main fuel drv argv =
  Prog (load_events drv argv ++ store_events config ++
        [begin_event drv; Call_usleep 150000; Call_FirstGetIpAddress] ++
        splash_events config ++ trace loop)
       (match outcome loop with
        | Next _ => Return 0
        | Return code => Return code
        | Fault => Fault
        | OutOfFuel => OutOfFuel
        end).
Proof.
  intros H config loop. unfold main.
  rewrite load_config_eq.
  rewrite (bind_next _ _ (loaded_config drv argv)) by done.
  rewrite build_display_order_eq.
  cbn [trace outcome mbind prog_bind].
  rewrite (start_display_opened _ _ H).
  cbn [trace outcome mbind prog_bind]. fold config loop.
  rewrite bind_return. cbn [trace outcome].
  by rewrite <- (app_assoc [_; _; _]).
Qed.

Lemma no_screen_enabled config :
  enabled_screens config = [] <-> config = mkDisplayConfig false false false false.
Proof. destruct config as [[] [] [] []]; split; (done || discriminate). Qed.

Lemma rotation_loop_empty fuel :
  let config := mkDisplayConfig false false false false in
  rotation_loop fuel (filled_array config) (filled_count config) 0 = Prog [] (Next tt).
Proof. destruct fuel; reflexivity. Qed.

Lemma rotation_loop_filled fuel config :
  enabled_screens config <> [] ->
  rotation_loop fuel (filled_array config) (filled_count config) 0 =
  Prog (passes (enabled_screens config) 0 fuel) OutOfFuel.
Proof.
  intros H.
  apply (rotation_loop_eq _ _ _ fuel 0%nat (rotation_filled config)).
  destruct (enabled_screens config); [done|simpl; lia].
Qed.

(** ** The claims *)

(** C1. For every combination of the four flags, lines 25-28 leave in
    [display_order] exactly the enabled screens in the fixed order 0, 1, 2, 3
    and nothing else: the k-th store writes the k-th enabled screen into cell
    k, the cells beyond [display_count] are never written, a screen is in the
    list exactly when its flag is set, and the list is strictly increasing.
    With temperature and sd_memory set and the other two clear the list is
    [0; 2]. *)
Theorem rotation_list_is_enabled_screens config :
  build_display_order config =
    Prog (imap (fun k s => Store_display_order (Z.of_nat k) s) (enabled_screens config))
         (Next ((Some <$> enabled_screens config) ++
                  replicate (4 - length (enabled_screens config)) None,
                Z.of_nat (length (enabled_screens config)))) /\
  (forall s, s ∈ enabled_screens config <-> screen_enabled config s = true) /\
  StronglySorted Z.lt (enabled_screens config) /\
  enabled_screens (mkDisplayConfig true false true false) = [0; 2] /\
  outcome (build_display_order (mkDisplayConfig true false true false)) =
    Next ([Some 0; Some 2; None; None], 2).
Proof.
  split; [apply build_display_order_eq|].
  split; [apply enabled_screens_elem|].
  split; [apply enabled_screens_sorted|].
  split; reflexivity.
Qed.

(** C2. Let [display_order] hold a non-empty rotation list [l] of length
    [n].  Each pass of the loop body moves the cursor from [i] to
    [(i + 1) mod n].  Started at cursor 0 the loop never leaves: whatever the
    number of passes allowed, it is still running and has not faulted.  Pass
    number [k] reads [display_order] at cursor [k mod n], so the cursor goes
    0, 1, ..., n-1, 0, ..., and renders the screen stored there.  The
    renders of every full cycle of [n] passes are the list [l] itself, so
    when [l] has no repetition each of its screens is rendered exactly once
    in the cycle. *)
Theorem rotation_cursor_cycles a n l fuel :
  rotation a n l -> 0 < n ->
  outcome (rotation_loop fuel a n 0) = OutOfFuel /\
  (forall i, 0 <= i < n -> outcome (loop_body a n i) = Next ((i + 1) mod n)) /\
  cursor_reads (trace (rotation_loop fuel a n 0)) =
    (fun k => Z.of_nat k mod n) <$> seq 0 fuel /\
  length (renders (trace (rotation_loop fuel a n 0))) = fuel /\
  (forall k, (k < fuel)%nat ->
     renders (trace (rotation_loop fuel a n 0)) !! k = l !! (k mod length l)%nat) /\
  (forall m, (m * length l + length l <= fuel)%nat ->
     take (length l) (drop (m * length l) (renders (trace (rotation_loop fuel a n 0)))) = l) /\
  (NoDup l -> forall m s, (m * length l + length l <= fuel)%nat -> s ∈ l ->
     count_occ Z.eq_dec
       (take (length l) (drop (m * length l) (renders (trace (rotation_loop fuel a n 0))))) s
     = 1%nat).
Proof.
  intros Hr Hn.
  pose proof Hr as (_ & Hlen & _).
  assert (0 < length l)%nat as Hl by lia.
  pose proof (rotation_loop_eq a n l fuel 0 Hr Hl) as Hloop.
  change (Z.of_nat 0) with 0 in Hloop. rewrite Hloop. simpl.
  split; [done|].
  split.
  { intros i Hi.
    destruct (lookup_lt_is_Some_2 l (Z.to_nat i)) as [s Hs]; [lia|].
    pose proof (loop_body_eq a n l (Z.to_nat i) s Hr Hs) as Hb.
    rewrite Z2Nat.id in Hb by lia. rewrite Hb. simpl. f_equal.
    rewrite Nat2Z.inj_mod, <- Hlen. f_equal. lia. }
  split.
  { rewrite passes_cursor by done. apply list_fmap_ext. intros _ k _. simpl.
    by rewrite Nat2Z.inj_mod, <- Hlen. }
  split; [by apply passes_renders_length|].
  split; [intros k Hk; by apply passes_render_at|].
  split; [intros m Hm; by apply passes_window|].
  intros Hnd m s Hm Hs. rewrite passes_window by done.
  apply NoDup_count_occ'; [by apply NoDup_ListNoDup|]. by apply list_elem_of_In.
Qed.

(** C2 at a concrete array: the list [7; 9] in a four-cell array. *)
Lemma rotation_cursor_cycles_witness :
  cursor_reads (trace (rotation_loop 5 [Some 7; Some 9; None; None] 2 0)) = [0; 1; 0; 1; 0] /\
  renders (trace (rotation_loop 5 [Some 7; Some 9; None; None] 2 0)) !! 3%nat = Some 9.
Proof.
  assert (rotation [Some 7; Some 9; None; None] 2 [7; 9]) as Hr by (repeat split).
  assert (0 < 2) as Hn by lia.
  destruct (rotation_cursor_cycles _ _ _ 5 Hr Hn) as (_ & _ & Hc & _ & Hk & _).
  split; [exact Hc|]. apply (Hk 3%nat). lia.
Defined.

Lemma hostname_is_last config :
  show_hostname config = true -> last (enabled_screens config) = Some 3.
Proof. destruct config as [[] [] [] []]; simpl; (done || discriminate). Qed.

(** C3. When [show_hostname] is set in the configuration in force and the
    I2C device opened, the trace of [main] is the start-up events, then
    [LCD_DisplayHostname()] and [sleep(3)], then the events of the rotation
    loop.  Nothing is rendered before the splash, the loop never calls
    [LCD_DisplayHostname], so the splash happens exactly once; and screen 3
    is the last entry of the rotation list, rendered by [LCD_Display(3)] in
    the last pass of every cycle. *)
Theorem hostname_splash_then_rotation fuel drv argv :
  show_hostname (loaded_config drv argv) = true -> 0 <= i2cd drv ->
  let config := loaded_config drv argv in
  let l := enabled_screens config in
  let before := load_events drv argv ++ store_events config ++
                [begin_event drv; Call_usleep 150000; Call_FirstGetIpAddress] in
  let loop := trace (rotation_loop fuel (filled_array config) (filled_count config) 0) in
  trace (main fuel drv argv) = before ++ [Call_LCD_DisplayHostname; Call_sleep 3] ++ loop /\
  occurrences is_render before = 0%nat /\
  occurrences is_hostname_render loop = 0%nat /\
  occurrences is_hostname_render (trace (main fuel drv argv)) = 1%nat /\
  last l = Some 3 /\
  (forall m, (m * length l + length l <= fuel)%nat ->
     renders loop !! (m * length l + (length l - 1))%nat = Some 3).
Proof.
  intros Hh Hi config l before loop.
  pose proof (hostname_is_last config Hh) as Hlast. fold l in Hlast.
  assert (l <> []) as Hne by (intros E; by rewrite E in Hlast).
  assert (0 < length l)%nat as Hlen by (destruct l; [done|simpl; lia]).
  assert (loop = passes l 0 fuel) as Hloop
    by (unfold loop; by rewrite rotation_loop_filled).
  assert (occurrences is_render before = 0%nat) as Hbefore.
  { unfold before. rewrite !occurrences_app, store_events_occurrences by done.
    unfold load_events. by destruct (load_ok drv argv). }
  assert (occurrences is_hostname_render loop = 0%nat) as Hquiet.
  { rewrite Hloop. apply passes_occurrences; [done|]. by intros []. }
  assert (trace (main fuel drv argv) =
          before ++ [Call_LCD_DisplayHostname; Call_sleep 3] ++ loop) as Htrace.
  { rewrite (main_i2c_opened fuel drv argv Hi). cbn [trace].
    fold config loop. unfold splash_events.
    change (show_hostname config = true) in Hh. rewrite Hh.
    unfold before. by rewrite <- !app_assoc. }
  split; [done|]. split; [done|]. split; [done|]. split.
  { rewrite Htrace, !occurrences_app, Hquiet.
    assert (occurrences is_hostname_render before = 0%nat) as ->; [|done].
    unfold before. rewrite !occurrences_app, store_events_occurrences by done.
    unfold load_events. by destruct (load_ok drv argv). }
  split; [done|].
  intros m Hm. rewrite Hloop, passes_render_at by lia.
  rewrite last_lookup in Hlast. rewrite <- Hlast. f_equal.
  rewrite Nat.add_comm, Nat.Div0.mod_add, Nat.mod_small by lia. lia.
Qed.

(** C3 at a driver whose loader enables the hostname screen only. *)
Lemma hostname_splash_then_rotation_witness :
  trace (main 2 (sample_driver (Some (mkDisplayConfig false false false true)) 3)
              ["display"%string]) =
  [Call_load_display_config config_path false; Store_display_order 0 3;
   Call_ssd1306_begin 2 60; Call_usleep 150000; Call_FirstGetIpAddress;
   Call_LCD_DisplayHostname; Call_sleep 3;
   Load_display_order 0; Call_LCD_Display 3; Call_sleep 1; Call_sleep 1; Call_sleep 1;
   Load_display_order 0; Call_LCD_Display 3; Call_sleep 1; Call_sleep 1; Call_sleep 1].
Proof.
  refine (proj1 (hostname_splash_then_rotation 2
    (sample_driver (Some (mkDisplayConfig false false false true)) 3)
    ["display"%string] _ _)).
  - reflexivity.
  - vm_compute. discriminate.
Defined.

Lemma renders_app t1 t2 : renders (t1 ++ t2) = renders t1 ++ renders t2.
Proof. apply omap_app. Qed.

Lemma renders_startup drv argv config :
  renders (load_events drv argv ++ store_events config ++
           [begin_event drv; Call_usleep 150000; Call_FirstGetIpAddress] ++
           splash_events config) = [].
Proof.
  unfold load_events, splash_events.
  destruct (load_ok drv argv), config as [[] [] [] []]; reflexivity.
Qed.

(** C4. Suppose the loader honours its contract and the load fails.  Then
    the configuration in force is the initial one, all four flags set; the
    rotation list is [0; 1; 2; 3]; [main] prints the warning right after the
    failed call and goes on to fill [display_order] and start the driver; the
    warning occurs exactly once in the whole trace; and when the I2C device
    opens, the loop runs and pass [k] renders screen [k mod 4]. *)
Theorem load_failure_falls_back fuel drv argv :
  leaves_defaults_on_failure drv -> load_ok drv argv = false ->
  loaded_config drv argv = mkDisplayConfig true true true true /\
  enabled_screens (loaded_config drv argv) = [0; 1; 2; 3] /\
  outcome (build_display_order (loaded_config drv argv)) =
    Next ([Some 0; Some 1; Some 2; Some 3], 4) /\
  (exists rest, trace (main fuel drv argv) =
     [Call_load_display_config config_path (debug_flag argv);
      Call_printf warning_text;
      Store_display_order 0 0; Store_display_order 1 1;
      Store_display_order 2 2; Store_display_order 3 3;
      begin_event drv] ++ rest) /\
  occurrences is_warning (trace (main fuel drv argv)) = 1%nat /\
  (0 <= i2cd drv ->
     outcome (main fuel drv argv) = OutOfFuel /\
     renders (trace (main fuel drv argv)) =
       (fun k => Z.of_nat (k mod 4)) <$> seq 0 fuel).
Proof.
  intros Hd Hf.
  assert (loaded_config drv argv = default_config) as Hc by (by apply Hd).
  split; [done|]. split; [by rewrite Hc|]. split; [by rewrite Hc|].
  assert (load_events drv argv =
          [Call_load_display_config config_path (debug_flag argv);
           Call_printf warning_text]) as Hl
    by (unfold load_events; by rewrite Hf).
  assert (0 <= i2cd drv ->
          main fuel drv argv =
          Prog (load_events drv argv ++ store_events default_config ++
                [begin_event drv; Call_usleep 150000; Call_FirstGetIpAddress] ++
                splash_events default_config ++ passes [0; 1; 2; 3] 0 fuel)
               OutOfFuel) as Hopen.
  { intros Hi. rewrite (main_i2c_opened fuel drv argv Hi), Hc.
    by rewrite rotation_loop_filled. }
  split; [|split].
  - destruct (Z.lt_ge_cases (i2cd drv) 0) as [Hi|Hi].
    + rewrite (main_i2c_failed fuel drv argv Hi), Hc, Hl. by eexists.
    + rewrite (Hopen Hi), Hl. by eexists.
  - destruct (Z.lt_ge_cases (i2cd drv) 0) as [Hi|Hi].
    + by rewrite (main_i2c_failed fuel drv argv Hi), Hc, Hl.
    + rewrite (Hopen Hi), Hl. cbn [trace].
      rewrite !occurrences_app, passes_occurrences; [done|simpl; lia|by intros []].
  - intros Hi. rewrite (Hopen Hi). split; [done|]. cbn [trace].
    rewrite !app_assoc, renders_app, <- !app_assoc, renders_startup, app_nil_l.
    apply (inj (fmap Some)).
    rewrite passes_renders by (simpl; lia).
    rewrite <- list_fmap_compose. apply list_fmap_ext. intros _ k _.
    unfold compose. change (length [0; 1; 2; 3]) with 4%nat. rewrite Nat.add_0_l.
    assert (k mod 4 < 4)%nat as Hk by (apply Nat.mod_upper_bound; lia).
    destruct (k mod 4)%nat as [|[|[|[|]]]]; (done || lia).
Qed.

(** C4 at a driver whose loader fails and leaves [*config] alone. *)
Lemma load_failure_falls_back_witness :
  occurrences is_warning (trace (main 3 (sample_driver None 3) ["display"%string])) = 1%nat /\
  renders (trace (main 3 (sample_driver None 3) ["display"%string])) = [0; 1; 2].
Proof.
  assert (leaves_defaults_on_failure (sample_driver None 3)) as Hd by (by intros ???).
  assert (load_ok (sample_driver None 3) ["display"%string] = false) as Hf by reflexivity.
  destruct (load_failure_falls_back 3 _ _ Hd Hf) as (_ & _ & _ & _ & Hw & Hr).
  split; [exact Hw|]. apply Hr. vm_compute. discriminate.
Defined.

(** C5. Whenever [main] returns, it returns 0.  If the I2C device failed to
    open, [main] returns 0 right after starting the driver and printing the
    error line, whatever the configuration and the loop budget.  If it opened
    and no screen is enabled, [main] returns 0 from its last line.  If it
    opened and some screen is enabled, [main] does not return at all. *)
Theorem exit_status_always_zero fuel drv argv :
  (forall code, outcome (main fuel drv argv) = Return code -> code = 0) /\
  (i2cd drv < 0 ->
     outcome (main fuel drv argv) = Return 0 /\
     exists before,
       trace (main fuel drv argv) =
       before ++ [begin_event drv; Call_printf i2c_error_text]) /\
  (0 <= i2cd drv -> enabled_screens (loaded_config drv argv) = [] ->
     outcome (main fuel drv argv) = Return 0) /\
  (0 <= i2cd drv -> enabled_screens (loaded_config drv argv) <> [] ->
     outcome (main fuel drv argv) = OutOfFuel).
Proof.
  assert (i2cd drv < 0 -> outcome (main fuel drv argv) = Return 0) as Hfail
    by (intros Hi; by rewrite (main_i2c_failed fuel drv argv Hi)).
  assert (0 <= i2cd drv -> enabled_screens (loaded_config drv argv) = [] ->
          outcome (main fuel drv argv) = Return 0) as Hempty.
  { intros Hi He. rewrite (main_i2c_opened fuel drv argv Hi). cbn [outcome].
    apply no_screen_enabled in He. by rewrite He, rotation_loop_empty. }
  assert (0 <= i2cd drv -> enabled_screens (loaded_config drv argv) <> [] ->
          outcome (main fuel drv argv) = OutOfFuel) as Hrun.
  { intros Hi He. rewrite (main_i2c_opened fuel drv argv Hi). cbn [outcome].
    by rewrite rotation_loop_filled. }
  split; [|split; [|by split]].
  - intros code Hcode.
    destruct (Z.lt_ge_cases (i2cd drv) 0) as [Hi|Hi].
    + rewrite (Hfail Hi) in Hcode. congruence.
    + destruct (decide (enabled_screens (loaded_config drv argv) = [])) as [He|He].
      * rewrite (Hempty Hi He) in Hcode. congruence.
      * rewrite (Hrun Hi He) in Hcode. discriminate.
  - intros Hi. split; [by apply Hfail|].
    rewrite (main_i2c_failed fuel drv argv Hi). cbn [trace].
    eexists. by rewrite app_assoc.
Qed.

(** C5 at a driver whose [ssd1306_begin] leaves -1 in [i2cd]. *)
Lemma exit_status_always_zero_witness :
  main 7 (sample_driver None (-1)) ["display"%string; "-d"%string] =
  Prog [Call_load_display_config config_path true; Call_printf warning_text;
        Store_display_order 0 0; Store_display_order 1 1;
        Store_display_order 2 2; Store_display_order 3 3;
        Call_ssd1306_begin 2 60; Call_printf i2c_error_text]
       (Return 0) /\
  outcome (main 7 (sample_driver None (-1)) ["display"%string; "-d"%string]) = Return 0.
Proof.
  split; [reflexivity|].
  destruct (exit_status_always_zero 7 (sample_driver None (-1))
              ["display"%string; "-d"%string]) as (_ & Hfail & _).
  apply Hfail. reflexivity.
Defined.

(** C6. When the configuration in force has all four flags clear and the
    I2C device opened, the whole run is: the loader call (and the warning, if
    the loader reported failure), [ssd1306_begin], [usleep], one
    [FirstGetIpAddress], and [return 0].  The loop makes no pass, whatever
    its budget, and neither [LCD_Display] nor [LCD_DisplayHostname] is
    called. *)
Theorem nothing_enabled_exits_without_rendering fuel drv argv :
  loaded_config drv argv = mkDisplayConfig false false false false ->
  0 <= i2cd drv ->
  let config := loaded_config drv argv in
  main fuel drv argv =
    Prog (load_events drv argv ++
          [begin_event drv; Call_usleep 150000; Call_FirstGetIpAddress])
         (Return 0) /\
  rotation_loop fuel (filled_array config) (filled_count config) 0 = Prog [] (Next tt) /\
  occurrences is_render (trace (main fuel drv argv)) = 0%nat /\
  occurrences is_ip_resolution (trace (main fuel drv argv)) = 1%nat.
Proof.
  intros Hc Hi config.
  assert (main fuel drv argv =
          Prog (load_events drv argv ++
                [begin_event drv; Call_usleep 150000; Call_FirstGetIpAddress])
               (Return 0)) as Hmain.
  { rewrite (main_i2c_opened fuel drv argv Hi), Hc, rotation_loop_empty.
    reflexivity. }
  split; [done|]. split; [unfold config; rewrite Hc; apply rotation_loop_empty|].
  rewrite Hmain. cbn [trace]. unfold load_events.
  by destruct (load_ok drv argv).
Qed.

(** C6 at a driver whose loader clears all four flags. *)
Lemma nothing_enabled_exits_without_rendering_witness :
  main 9 (sample_driver (Some (mkDisplayConfig false false false false)) 3)
       ["display"%string] =
  Prog [Call_load_display_config config_path false;
        Call_ssd1306_begin 2 60; Call_usleep 150000; Call_FirstGetIpAddress]
       (Return 0).
Proof.
  refine (proj1 (nothing_enabled_exits_without_rendering 9
    (sample_driver (Some (mkDisplayConfig false false false false)) 3)
    ["display"%string] _ _)).
  - reflexivity.
  - vm_compute. discriminate.
Defined.

(** C7, as the specification words it: the driver is initialised before the
    configuration is loaded.  In a run with the default configuration and an
    open I2C device the loader call is the first event and [ssd1306_begin]
    the sixth. *)
Lemma driver_first_counterexample :
  ~ precedes is_begin is_load_config
      (trace (main 1 (sample_driver (Some default_config) 3) ["display"%string])).
Proof.
  intros (i & j & Hi & Hj & Hlt).
  vm_compute in Hi, Hj.
  injection Hi as <-. injection Hj as <-. lia.
Qed.

Lemma loop_occurrences p fuel config :
  (forall e, is_pass_event (enabled_screens config) e -> p e = false) ->
  occurrences p
    (trace (rotation_loop fuel (filled_array config) (filled_count config) 0)) = 0%nat.
Proof.
  intros Hp.
  destruct (decide (enabled_screens config = [])) as [He|He].
  - apply no_screen_enabled in He. by rewrite He, rotation_loop_empty.
  - rewrite rotation_loop_filled by done. cbn [trace].
    apply passes_occurrences; [|done].
    destruct (enabled_screens config); [done|simpl; lia].
Qed.

Lemma load_precedes_begin drv argv config rest :
  precedes is_load_config is_begin
    (load_events drv argv ++ store_events config ++ begin_event drv :: rest).
Proof.
  unfold load_events, begin_event.
  destruct (load_ok drv argv), config as [[] [] [] []]; cbn;
    eexists _, _; (split; [reflexivity|split; [reflexivity|lia]]).
Qed.

(** C7, amended.  Every run of [main] starts with the loader call (followed
    by the warning when it failed), then the stores that fill
    [display_order] from the loaded configuration, then [ssd1306_begin].
    What follows holds no further loader call, store or driver start: it is
    the error line if the device did not open, and otherwise [usleep], the IP
    resolution, the hostname splash if [show_hostname] is set, and the events
    of the rotation loop.  A loader that honours its contract and fails
    leaves all four screens enabled. *)
Theorem startup_order fuel drv argv :
  let config := loaded_config drv argv in
  let loop := trace (rotation_loop fuel (filled_array config) (filled_count config) 0) in
  exists rest,
    trace (main fuel drv argv) =
      load_events drv argv ++ store_events config ++ begin_event drv :: rest /\
    rest = (if i2cd drv <? 0 then [Call_printf i2c_error_text]
            else [Call_usleep 150000; Call_FirstGetIpAddress] ++
                 splash_events config ++ loop) /\
    occurrences is_load_config rest = 0%nat /\
    occurrences is_store rest = 0%nat /\
    occurrences is_begin rest = 0%nat /\
    precedes is_load_config is_begin (trace (main fuel drv argv)) /\
    (leaves_defaults_on_failure drv -> load_ok drv argv = false ->
       enabled_screens config = [0; 1; 2; 3]).
Proof.
  intros config loop.
  assert (forall p, (forall l e, is_pass_event l e -> p e = false) ->
            p Call_LCD_DisplayHostname = false -> p (Call_sleep 3) = false ->
            occurrences p (splash_events config ++ loop) = 0%nat) as Htail.
  { intros p Hp Hh Hs. rewrite occurrences_app.
    unfold loop. rewrite loop_occurrences by apply Hp.
    unfold splash_events, occurrences. destruct (show_hostname config); simpl; [|done].
    by rewrite Hh, Hs. }
  assert (leaves_defaults_on_failure drv -> load_ok drv argv = false ->
          enabled_screens config = [0; 1; 2; 3]) as Hdef.
  { intros Hd Hf. unfold config, loaded_config. by rewrite Hd. }
  destruct (Z.lt_ge_cases (i2cd drv) 0) as [Hi|Hi].
  - exists [Call_printf i2c_error_text].
    rewrite (main_i2c_failed fuel drv argv Hi). cbn [trace]. fold config.
    assert ((i2cd drv <? 0) = true) as -> by (by apply Z.ltb_lt).
    repeat (split; [done|]). split; [apply load_precedes_begin|done].
  - exists ([Call_usleep 150000; Call_FirstGetIpAddress] ++ splash_events config ++ loop).
    rewrite (main_i2c_opened fuel drv argv Hi). cbn [trace]. fold config loop.
    assert ((i2cd drv <? 0) = false) as -> by (apply Z.ltb_ge; lia).
    split; [done|]. split; [done|].
    split; [apply (Htail is_load_config); [by intros ? []|done..]|].
    split; [apply (Htail is_store); [by intros ? []|done..]|].
    split; [apply (Htail is_begin); [by intros ? []|done..]|].
    split; [apply (load_precedes_begin drv argv config)|done].
Qed.

(** C7, amended, at the default configuration with a failing loader. *)
Lemma startup_order_witness :
  precedes is_load_config is_begin
    (trace (main 1 (sample_driver None 3) ["display"%string])) /\
  enabled_screens (loaded_config (sample_driver None 3) ["display"%string]) = [0; 1; 2; 3].
Proof.
  destruct (startup_order 1 (sample_driver None 3) ["display"%string])
    as (rest & _ & _ & _ & _ & _ & Hp & Hd).
  split; [exact Hp|]. apply Hd; [by intros ???|reflexivity].
Defined.

(** ** Time *)

Lemma elapsed_usec_app t1 t2 :
  elapsed_usec (t1 ++ t2) = elapsed_usec t1 + elapsed_usec t2.
Proof. induction t1 as [|e t1 IH]; simpl; [done|]. rewrite IH. lia. Qed.

Lemma timeline_app t1 : forall now t2,
  timeline now (t1 ++ t2) =
  timeline now t1 ++ timeline (now + elapsed_usec t1) t2.
Proof.
  induction t1 as [|e t1 IH]; intros now t2; simpl.
  - by rewrite Z.add_0_r.
  - destruct e; simpl; rewrite IH, ?Z.add_0_l; try done; f_equal; f_equal; lia.
Qed.

Lemma same_timeline_bind {A B} (p q : prog A) (f g : A -> prog B) :
  same_timeline p q -> (forall a, same_timeline (f a) (g a)) ->
  same_timeline (p ≫= f) (q ≫= g).
Proof.
  intros (Ho & He & Ht) Hfg. unfold mbind, prog_bind. rewrite <- Ho.
  destruct (outcome p) as [x| | |]; unfold same_timeline; cbn [trace outcome];
    [|done..].
  destruct (Hfg x) as (Ho' & He' & Ht').
  split; [done|]. split.
  - rewrite !elapsed_usec_app. congruence.
  - intros now. rewrite !timeline_app, Ht, He. f_equal. apply Ht'.
Qed.

Lemma same_timeline_refl {A} (p : prog A) : same_timeline p p.
Proof. by repeat split. Qed.

Lemma loop_body_same_timeline a n idx :
  same_timeline (loop_body a n idx) (loop_body_single_pause a n idx).
Proof.
  unfold loop_body, loop_body_single_pause.
  apply same_timeline_bind; [apply same_timeline_refl|]. intros s.
  apply same_timeline_bind; [apply same_timeline_refl|]. intros _.
  unfold int_succ, int_rem.
  destruct (idx <? INT_MAX), (n =? 0); by repeat split.
Qed.

Lemma rotation_loop_same_timeline fuel a n : forall idx,
  same_timeline (rotation_loop fuel a n idx) (rotation_loop_single_pause fuel a n idx).
Proof.
  induction fuel as [|fuel IH]; intros idx; simpl;
    destruct (0 <? n); try apply same_timeline_refl.
  apply same_timeline_bind; [apply loop_body_same_timeline|apply IH].
Qed.

Lemma passes_render_times l fuel : forall i now,
  (i < length l)%nat ->
  render_times now (passes l i fuel) =
  (fun k => now + 3000000 * Z.of_nat k) <$> seq 0 fuel.
Proof.
  induction fuel as [|fuel IH]; intros i now Hi; [done|].
  rewrite passes_front by done.
  destruct (lookup_lt_is_Some_2 l i Hi) as [s Hs].
  unfold pass_trace. rewrite Hs. unfold render_times in *. simpl.
  rewrite IH by (apply Nat.mod_upper_bound; lia).
  rewrite <- fmap_S_seq, <- list_fmap_compose.
  f_equal; [lia|]. apply list_fmap_ext. intros _ k _. simpl. lia.
Qed.

(** C8. On a clock that charges [sleep(s)] with [s] seconds and nothing
    else with any time, the loop as written and the loop with a single
    [sleep(3)] per pass cannot be told apart: from any cursor and for any
    budget they end the same way, take the same time and show the same
    events at the same instants.  In a pass over a rotation list the three
    [sleep(1)] calls follow the render with nothing in between and add up to
    three seconds; and the delay is the same in every pass: render number [k]
    of the loop happens [3 k] seconds after the loop was entered. *)
Theorem triple_sleep_is_one_pause fuel a n :
  (forall idx,
     same_timeline (rotation_loop fuel a n idx)
                   (rotation_loop_single_pause fuel a n idx)) /\
  (forall l idx, rotation a n l -> 0 <= idx < n ->
     exists s,
       trace (loop_body a n idx) =
         [Load_display_order idx; Call_LCD_Display s;
          Call_sleep 1; Call_sleep 1; Call_sleep 1] /\
       trace (loop_body_single_pause a n idx) =
         [Load_display_order idx; Call_LCD_Display s; Call_sleep 3] /\
       elapsed_usec (trace (loop_body a n idx)) = 3 * 1000000 /\
       elapsed_usec [Call_sleep 1; Call_sleep 1; Call_sleep 1] =
         elapsed_usec [Call_sleep 3]) /\
  (forall l, rotation a n l -> 0 < n ->
     render_times 0 (trace (rotation_loop fuel a n 0)) =
     (fun k => 3 * 1000000 * Z.of_nat k) <$> seq 0 fuel).
Proof.
  split; [apply rotation_loop_same_timeline|]. split.
  - intros l idx Hr Hi.
    pose proof Hr as (_ & Hn & _).
    destruct (lookup_lt_is_Some_2 l (Z.to_nat idx)) as [s Hs]; [lia|].
    pose proof (loop_body_eq a n l (Z.to_nat idx) s Hr Hs) as Hb.
    rewrite Z2Nat.id in Hb by lia.
    exists s. rewrite Hb. cbn [trace]. split; [done|].
    destruct (loop_body_same_timeline a n idx) as (_ & He & Ht).
    rewrite Hb in He, Ht. cbn [trace] in He, Ht.
    split; [|by split].
    pose proof (rotation_lookup _ _ _ _ _ Hr Hs) as Ha.
    unfold loop_body_single_pause, load.
    assert (in_bounds idx = true) as ->.
    { apply in_bounds_spec. pose proof (rotation_bound _ _ _ Hr). lia. }
    rewrite Ha. unfold int_succ, int_rem.
    destruct (idx <? INT_MAX), (n =? 0); reflexivity.
  - intros l Hr Hn.
    pose proof Hr as (_ & Hlen & _).
    assert (0 < length l)%nat as Hl by lia.
    pose proof (rotation_loop_eq a n l fuel 0 Hr Hl) as Hloop.
    change (Z.of_nat 0) with 0 in Hloop. rewrite Hloop. cbn [trace].
    rewrite passes_render_times by done.
    apply list_fmap_ext. intros _ k _. simpl. lia.
Qed.

(** C8 at the list [7; 9]: four renders, three seconds apart. *)
Lemma triple_sleep_is_one_pause_witness :
  render_times 0 (trace (rotation_loop 4 [Some 7; Some 9; None; None] 2 0)) =
    [0; 3000000; 6000000; 9000000] /\
  elapsed_usec (trace (loop_body [Some 7; Some 9; None; None] 2 1)) = 3000000.
Proof.
  assert (rotation [Some 7; Some 9; None; None] 2 [7; 9]) as Hr by (repeat split).
  destruct (triple_sleep_is_one_pause 4 [Some 7; Some 9; None; None] 2)
    as (_ & Hpass & Htimes).
  split; [apply (Htimes _ Hr); lia|].
  destruct (Hpass _ 1 Hr) as (s & _ & _ & He & _); [lia|]. exact He.
Defined.

(** ** Array accesses *)

Lemma accesses_within_weaken (ok ok' : Z -> Prop) t :
  (forall i, ok i -> ok' i) -> accesses_within ok t -> accesses_within ok' t.
Proof.
  intros H Ht. eapply Forall_impl; [exact Ht|].
  intros []; simpl; auto.
Qed.

Lemma store_events_within config :
  accesses_within (fun i => 0 <= i < 4) (store_events config).
Proof.
  destruct config as [[] [] [] []]; cbn;
    repeat (constructor; [simpl; lia|]); constructor.
Qed.

Lemma loop_accesses fuel config :
  let loop := rotation_loop fuel (filled_array config) (filled_count config) 0 in
  accesses_within (fun i => 0 <= i < filled_count config) (trace loop) /\
  outcome loop <> Fault.
Proof.
  intros loop. unfold loop.
  destruct (decide (enabled_screens config = [])) as [He|He].
  - apply no_screen_enabled in He. rewrite He, rotation_loop_empty.
    split; [constructor|done].
  - rewrite rotation_loop_filled by done. split; [|done]. cbn [trace].
    eapply Forall_impl.
    + apply passes_events. destruct (enabled_screens config); [done|simpl; lia].
    + by intros [].
Qed.

(** C9. Lines 25-28 never fault: for every configuration they end with
    [display_count] between 0 and 4, having made exactly [display_count]
    stores, each at an index from 0 to 3.  A pass of the loop started with
    the cursor inside [0, display_count) reads at that cursor and leaves the
    cursor inside the same range.  In a whole run of [main], for any driver,
    arguments and loop budget, every read made by the loop is at an index in
    [0, display_count), every access to [display_order] is at an index from 0
    to 3, and no undefined behaviour is reached. *)
Theorem display_order_accesses_in_bounds fuel drv argv :
  let config := loaded_config drv argv in
  let loop := rotation_loop fuel (filled_array config) (filled_count config) 0 in
  (forall config', exists a n,
     outcome (build_display_order config') = Next (a, n) /\
     0 <= n <= 4 /\ length a = 4%nat /\
     occurrences is_store (trace (build_display_order config')) = Z.to_nat n /\
     accesses_within (fun i => 0 <= i < 4) (trace (build_display_order config'))) /\
  (forall a n l idx, rotation a n l -> 0 <= idx < n ->
     exists s idx',
       loop_body a n idx =
         Prog [Load_display_order idx; Call_LCD_Display s;
               Call_sleep 1; Call_sleep 1; Call_sleep 1] (Next idx') /\
       0 <= idx' < n /\ n <= 4) /\
  accesses_within (fun i => 0 <= i < filled_count config) (trace loop) /\
  accesses_within (fun i => 0 <= i < 4) (trace (main fuel drv argv)) /\
  outcome loop <> Fault /\
  outcome (main fuel drv argv) <> Fault.
Proof.
  intros config loop.
  destruct (loop_accesses fuel config) as [Hloop Hnofault]. fold loop in Hloop, Hnofault.
  split.
  { intros config'. rewrite build_display_order_eq. cbn [trace outcome].
    eexists _, _. split; [done|]. fold (store_events config').
    pose proof (enabled_screens_length config').
    split; [unfold filled_count; lia|]. split; [|split; [|apply store_events_within]].
    - destruct config' as [[] [] [] []]; reflexivity.
    - destruct config' as [[] [] [] []]; reflexivity. }
  split.
  { intros a n l idx Hr Hi.
    pose proof Hr as (_ & Hn & _). pose proof (rotation_bound _ _ _ Hr).
    destruct (lookup_lt_is_Some_2 l (Z.to_nat idx)) as [s Hs]; [lia|].
    pose proof (loop_body_eq a n l (Z.to_nat idx) s Hr Hs) as Hb.
    rewrite Z2Nat.id in Hb by lia.
    eexists _, _. split; [exact Hb|].
    pose proof (Nat.mod_upper_bound (S (Z.to_nat idx)) (length l)). lia. }
  split; [done|].
  assert (accesses_within (fun i => 0 <= i < 4) (load_events drv argv)) as Hload.
  { unfold load_events. destruct (load_ok drv argv); repeat constructor. }
  destruct (Z.lt_ge_cases (i2cd drv) 0) as [Hi|Hi].
  - rewrite (main_i2c_failed fuel drv argv Hi). cbn [trace outcome].
    split; [|by split].
    apply Forall_app. split; [done|]. apply Forall_app.
    split; [apply store_events_within|repeat constructor].
  - rewrite (main_i2c_opened fuel drv argv Hi). cbn [trace outcome]. fold config loop.
    split; [|split; [done|by destruct (outcome loop)]].
    apply Forall_app. split; [done|]. apply Forall_app.
    split; [apply store_events_within|]. apply Forall_app.
    split; [repeat constructor|]. apply Forall_app. split.
    + unfold splash_events. destruct (show_hostname config); repeat constructor.
    + eapply accesses_within_weaken; [|exact Hloop].
      intros i Hrange. pose proof (enabled_screens_length config).
      unfold filled_count in Hrange. lia.
Qed.

(** C9 at the list [7; 9] with the cursor on its last cell. *)
Lemma display_order_accesses_in_bounds_witness :
  exists s idx',
    loop_body [Some 7; Some 9; None; None] 2 1 =
      Prog [Load_display_order 1; Call_LCD_Display s;
            Call_sleep 1; Call_sleep 1; Call_sleep 1] (Next idx') /\
    0 <= idx' < 2 /\ 2 <= 4.
Proof.
  assert (rotation [Some 7; Some 9; None; None] 2 [7; 9]) as Hr by (repeat split).
  destruct (display_order_accesses_in_bounds 0 (sample_driver None 3) [])
    as (_ & Hpass & _).
  apply (Hpass _ _ _ 1 Hr). lia.
Defined.

(** ** The argument scan *)

Lemma is_debug_arg_spec arg :
  is_debug_arg arg = true <-> arg = "-d"%string \/ arg = "--debug"%string.
Proof. unfold is_debug_arg. by rewrite orb_true_iff, !String.eqb_eq. Qed.

Lemma scan_args_spec args : forall debug,
  scan_args args debug = debug || existsb is_debug_arg args.
Proof.
  induction args as [|arg args IH]; intros debug; simpl.
  - by rewrite orb_false_r.
  - rewrite IH. by destruct (is_debug_arg arg), debug.
Qed.

Lemma debug_flag_existsb argv :
  debug_flag argv = existsb is_debug_arg (drop 1 argv).
Proof. unfold debug_flag. by rewrite scan_args_spec. Qed.

Lemma existsb_filter_same (p : string -> bool) l :
  existsb p (List.filter p l) = existsb p l.
Proof.
  induction l as [|x l IH]; simpl; [done|].
  destruct (p x) eqn:E; simpl; by rewrite ?E, IH.
Qed.

Lemma main_depends_on_debug_flag fuel drv argv argv' :
  debug_flag argv' = debug_flag argv -> main fuel drv argv' = main fuel drv argv.
Proof. intros H. unfold main. by rewrite H. Qed.

(** C10. The flag [main] hands to [load_display_config] is set exactly
    when some argument at position 1 or later is "-d" or "--debug"; the
    loader call carrying it is the first event of every run.  Nothing else
    of [argv] matters: two argument vectors with the same flag give the same
    run, so deleting every argument after [argv[0]] that is not one of the
    two spellings, or inserting such an argument anywhere after [argv[0]],
    leaves the run as it was. *)
Theorem debug_flag_spec argv :
  (debug_flag argv = true <->
   exists i arg, (1 <= i)%nat /\ argv !! i = Some arg /\
                 (arg = "-d"%string \/ arg = "--debug"%string)) /\
  (forall fuel drv, exists rest,
     trace (main fuel drv argv) =
     Call_load_display_config config_path (debug_flag argv) :: rest) /\
  (forall fuel drv argv',
     debug_flag argv' = debug_flag argv -> main fuel drv argv' = main fuel drv argv) /\
  (forall fuel drv,
     main fuel drv (take 1 argv ++ List.filter is_debug_arg (drop 1 argv)) =
     main fuel drv argv) /\
  (forall fuel drv before after arg,
     argv = before ++ after -> before <> [] -> is_debug_arg arg = false ->
     main fuel drv (before ++ arg :: after) = main fuel drv argv).
Proof.
  split; [|split; [|split; [|split]]].
  - rewrite debug_flag_existsb, existsb_exists. split.
    + intros (arg & Hin & Harg).
      apply list_elem_of_In, list_elem_of_lookup in Hin as [j Hj].
      rewrite lookup_drop in Hj.
      exists (1 + j)%nat, arg. split; [lia|]. split; [done|].
      by apply is_debug_arg_spec.
    + intros (i & arg & Hi & Hlook & Harg).
      exists arg. split; [|by apply is_debug_arg_spec].
      apply list_elem_of_In, list_elem_of_lookup. exists (i - 1)%nat.
      rewrite lookup_drop. by replace (1 + (i - 1))%nat with i by lia.
  - intros fuel drv.
    destruct (Z.lt_ge_cases (i2cd drv) 0) as [Hi|Hi].
    + rewrite (main_i2c_failed fuel drv argv Hi). by eexists.
    + rewrite (main_i2c_opened fuel drv argv Hi). by eexists.
  - intros fuel drv argv'. apply main_depends_on_debug_flag.
  - intros fuel drv. apply main_depends_on_debug_flag.
    rewrite !debug_flag_existsb.
    destruct argv as [|arg0 args]; [done|]. simpl.
    rewrite drop_0. apply existsb_filter_same.
  - intros fuel drv before after arg -> Hne Harg.
    apply main_depends_on_debug_flag. rewrite !debug_flag_existsb.
    destruct before as [|arg0 before]; [done|]. simpl. rewrite !drop_0.
    rewrite !existsb_app. simpl. by rewrite Harg.
Qed.

(** C10 at four arguments, "--debug" in third place. *)
Lemma debug_flag_spec_witness :
  debug_flag ["display"; "-x"; "--debug"; "file"]%string = true /\
  main 2 (sample_driver None 3) ["display"; "-q"; "-x"; "--debug"; "file"]%string =
  main 2 (sample_driver None 3) ["display"; "-x"; "--debug"; "file"]%string.
Proof.
  destruct (debug_flag_spec ["display"; "-x"; "--debug"; "file"]%string)
    as (Hiff & _ & _ & _ & Hins).
  split.
  - apply Hiff. exists 2%nat, "--debug"%string.
    split; [lia|]. split; [reflexivity|]. by right.
  - apply (Hins 2%nat (sample_driver None 3) ["display"%string]
                ["-x"; "--debug"; "file"]%string "-q"%string);
      [reflexivity|discriminate|reflexivity].
Defined.

(** * Further properties of [main] *)

(** ** The three shapes of a run *)

Lemma main_idle fuel drv argv :
  0 <= i2cd drv -> enabled_screens (loaded_config drv argv) = [] ->
  main fuel drv argv =
  Prog (load_events drv argv ++
        [begin_event drv; Call_usleep 150000; Call_FirstGetIpAddress])
       (Return 0).
Proof.
  intros Hi He. apply no_screen_enabled in He.
  by rewrite (main_i2c_opened fuel drv argv Hi), He, rotation_loop_empty.
Qed.

Lemma main_rotating fuel drv argv :
  0 <= i2cd drv -> enabled_screens (loaded_config drv argv) <> [] ->
  main fuel drv argv =
  Prog (load_events drv argv ++ store_events (loaded_config drv argv) ++
        [begin_event drv; Call_usleep 150000; Call_FirstGetIpAddress] ++
        splash_events (loaded_config drv argv) ++
        passes (enabled_screens (loaded_config drv argv)) 0 fuel)
       OutOfFuel.
Proof.
  intros Hi He.
  by rewrite (main_i2c_opened fuel drv argv Hi), rotation_loop_filled.
Qed.

(** Every run has one of three shapes: the device did not open; it opened
    and no screen is enabled; it opened and the loop runs. *)
Lemma main_cases (P : prog unit -> Prop) fuel drv argv :
  let config := loaded_config drv argv in
  (i2cd drv < 0 ->
     P (Prog (load_events drv argv ++ store_events config ++
              [begin_event drv; Call_printf i2c_error_text]) (Return 0))) ->
  (0 <= i2cd drv -> enabled_screens config = [] ->
     P (Prog (load_events drv argv ++
              [begin_event drv; Call_usleep 150000; Call_FirstGetIpAddress])
             (Return 0))) ->
  (0 <= i2cd drv -> enabled_screens config <> [] ->
     P (Prog (load_events drv argv ++ store_events config ++
              [begin_event drv; Call_usleep 150000; Call_FirstGetIpAddress] ++
              splash_events config ++ passes (enabled_screens config) 0 fuel)
             OutOfFuel)) ->
  P (main fuel drv argv).
Proof.
  intros config Hfail Hidle Hrun.
  destruct (Z.lt_ge_cases (i2cd drv) 0) as [Hi|Hi].
  - rewrite (main_i2c_failed fuel drv argv Hi). by apply Hfail.
  - destruct (decide (enabled_screens config = [])) as [He|He].
    + rewrite (main_idle fuel drv argv Hi He). by apply Hidle.
    + rewrite (main_rotating fuel drv argv Hi He). by apply Hrun.
Qed.

Lemma nonempty_length (l : list Z) : l <> [] -> (0 < length l)%nat.
Proof. destruct l; [done|simpl; lia]. Qed.

Lemma i2cd_ltb_true drv : i2cd drv < 0 -> (i2cd drv <? 0) = true.
Proof. apply Z.ltb_lt. Qed.

Lemma i2cd_ltb_false drv : 0 <= i2cd drv -> (i2cd drv <? 0) = false.
Proof. intros H. apply Z.ltb_ge. lia. Qed.

(** Counting in the part of a run that does not depend on the loop. *)
Ltac count_startup :=
  rewrite ?occurrences_app, ?store_events_occurrences by done;
  unfold load_events, splash_events, occurrences;
  repeat match goal with
         | |- context [if ?b then _ else _] => destruct b
         end;
  reflexivity.

Ltac count_run :=
  cbn [trace outcome];
  rewrite ?occurrences_app;
  rewrite ?passes_occurrences by (by apply nonempty_length || by intros []);
  count_startup.

(** ** The events a run can contain *)

Lemma store_events_all (Q : event -> Prop) config :
  (forall i v, Q (Store_display_order i v)) -> Forall Q (store_events config).
Proof.
  intros HQ. destruct config as [[] [] [] []]; cbn; repeat constructor; apply HQ.
Qed.

Lemma load_events_all (Q : event -> Prop) drv argv :
  Q (Call_load_display_config config_path (debug_flag argv)) ->
  Q (Call_printf warning_text) ->
  Forall Q (load_events drv argv).
Proof.
  intros Hl Hw. unfold load_events. destruct (load_ok drv argv); by repeat constructor.
Qed.

Lemma splash_events_all (Q : event -> Prop) config :
  Q Call_LCD_DisplayHostname -> Q (Call_sleep 3) -> Forall Q (splash_events config).
Proof.
  intros Hh Hs. unfold splash_events.
  destruct (show_hostname config); by repeat constructor.
Qed.

Lemma main_trace_all (Q : event -> Prop) fuel drv argv :
  Q (Call_load_display_config config_path (debug_flag argv)) ->
  Q (Call_printf warning_text) ->
  Q (Call_printf i2c_error_text) ->
  (forall i v, Q (Store_display_order i v)) ->
  Q (begin_event drv) ->
  Q (Call_usleep 150000) ->
  Q Call_FirstGetIpAddress ->
  Q Call_LCD_DisplayHostname ->
  Q (Call_sleep 3) ->
  (forall e, is_pass_event (enabled_screens (loaded_config drv argv)) e -> Q e) ->
  Forall Q (trace (main fuel drv argv)).
Proof.
  intros Hload Hwarn Herr Hstore Hbegin Husleep Hip Hhost Hsleep Hpass.
  apply (main_cases (fun p => Forall Q (trace p))); intros; cbn [trace];
    rewrite ?Forall_app; repeat split;
    try (by apply load_events_all);
    try (by apply store_events_all);
    try (by apply splash_events_all);
    try (by repeat constructor).
  eapply Forall_impl; [apply passes_events; by apply nonempty_length|done].
Qed.

(** ** What is printed *)

(** X1. In every run the warning of line 23 is printed once if
    [load_display_config] returned false and not at all if it returned true,
    whatever the loader did to [*config], whether or not the I2C device
    opens, and however long the loop runs. *)
Theorem warning_iff_load_failed fuel drv argv :
  occurrences is_warning (trace (main fuel drv argv)) =
  (if load_ok drv argv then 0 else 1)%nat.
Proof.
  apply (main_cases (fun p => occurrences is_warning (trace p) = _));
    intros; count_run.
Qed.

(** X2. The error line of line 33 is printed once if [i2cd] is negative
    after [ssd1306_begin] and never otherwise; when printed it is the last
    event of the run.  [main] prints nothing but these two lines: the number
    of [printf] calls is the number of warnings plus the number of error
    lines, so at most two. *)
Theorem error_line_iff_i2c_failed fuel drv argv :
  occurrences is_i2c_error (trace (main fuel drv argv)) =
    (if i2cd drv <? 0 then 1%nat else 0%nat) /\
  occurrences is_printf (trace (main fuel drv argv)) =
    (occurrences is_warning (trace (main fuel drv argv)) +
     occurrences is_i2c_error (trace (main fuel drv argv)))%nat /\
  (occurrences is_printf (trace (main fuel drv argv)) <= 2)%nat /\
  (i2cd drv < 0 ->
     last (trace (main fuel drv argv)) = Some (Call_printf i2c_error_text)).
Proof.
  assert (occurrences is_i2c_error (trace (main fuel drv argv)) =
          (if i2cd drv <? 0 then 1%nat else 0%nat)) as Herr.
  { apply (main_cases (fun p => occurrences is_i2c_error (trace p) = _));
      intros Hi; intros;
      rewrite ?(i2cd_ltb_true _ Hi), ?(i2cd_ltb_false _ Hi); count_run. }
  assert (occurrences is_printf (trace (main fuel drv argv)) =
          ((if load_ok drv argv then 0 else 1) +
           (if (i2cd drv <? 0)%Z then 1 else 0))%nat) as Hprintf.
  { apply (main_cases (fun p => occurrences is_printf (trace p) = _));
      intros Hi; intros;
      rewrite ?(i2cd_ltb_true _ Hi), ?(i2cd_ltb_false _ Hi); count_run. }
  assert (occurrences is_warning (trace (main fuel drv argv)) =
          (if load_ok drv argv then 0 else 1)%nat) as Hwarn.
  { apply (main_cases (fun p => occurrences is_warning (trace p) = _));
      intros; count_run. }
  split; [done|]. split; [by rewrite Hprintf, Hwarn, Herr|].
  split.
  - rewrite Hprintf. destruct (load_ok drv argv), (i2cd drv <? 0); lia.
  - intros Hi. rewrite (main_i2c_failed fuel drv argv Hi). cbn [trace].
    change [begin_event drv; Call_printf i2c_error_text]
      with ([begin_event drv] ++ [Call_printf i2c_error_text]).
    rewrite !app_assoc. apply last_snoc.
Qed.

(** X2 at a driver whose loader fails and whose device does not open: two
    lines, the error last. *)
Lemma error_line_iff_i2c_failed_witness :
  last (trace (main 4 (sample_driver None (-1)) ["display"%string])) =
  Some (Call_printf i2c_error_text).
Proof.
  apply (error_line_iff_i2c_failed 4 (sample_driver None (-1)) ["display"%string]).
  reflexivity.
Defined.

(** ** What is called, and how often *)

(** X3. If the I2C device did not open, [main] stops right after the error
    line: it never sleeps, never resolves the IP address, never renders and
    never reads [display_order], although by then it has called the loader
    and made one store per enabled screen. *)
Theorem i2c_failure_skips_everything fuel drv argv :
  i2cd drv < 0 ->
  occurrences is_pause (trace (main fuel drv argv)) = 0%nat /\
  occurrences is_ip_resolution (trace (main fuel drv argv)) = 0%nat /\
  occurrences is_render (trace (main fuel drv argv)) = 0%nat /\
  occurrences is_load (trace (main fuel drv argv)) = 0%nat /\
  occurrences is_load_config (trace (main fuel drv argv)) = 1%nat /\
  occurrences is_store (trace (main fuel drv argv)) =
    length (enabled_screens (loaded_config drv argv)) /\
  outcome (main fuel drv argv) = Return 0.
Proof.
  intros Hi. rewrite (main_i2c_failed fuel drv argv Hi). cbn [trace outcome].
  repeat (split; [count_startup|]). split; [|done].
  rewrite !occurrences_app. unfold load_events, occurrences.
  destruct (load_ok drv argv), (loaded_config drv argv) as [[] [] [] []]; reflexivity.
Qed.

(** X3 at a driver whose device does not open, all screens enabled. *)
Lemma i2c_failure_skips_everything_witness :
  occurrences is_render (trace (main 4 (sample_driver None (-1)) ["display"%string])) = 0%nat /\
  occurrences is_store (trace (main 4 (sample_driver None (-1)) ["display"%string])) = 4%nat.
Proof.
  destruct (i2c_failure_skips_everything 4 (sample_driver None (-1)) ["display"%string])
    as (_ & _ & Hr & _ & _ & Hs & _); [reflexivity|].
  split; [exact Hr|exact Hs].
Defined.

(** X4. Every run calls [load_display_config] exactly once, as its first
    event, with the path "display.cfg" and the debug flag, and calls
    [ssd1306_begin] exactly once with the two macros.  [usleep(150000)] and
    [FirstGetIpAddress] are each called once when the device opened and not
    at all when it did not. *)
Theorem start_up_calls_once fuel drv argv :
  occurrences is_load_config (trace (main fuel drv argv)) = 1%nat /\
  head (trace (main fuel drv argv)) =
    Some (Call_load_display_config "display.cfg" (debug_flag argv)) /\
  occurrences is_begin (trace (main fuel drv argv)) = 1%nat /\
  Call_ssd1306_begin (SSD1306_SWITCHCAPVCC drv) (SSD1306_I2C_ADDRESS drv)
    ∈ trace (main fuel drv argv) /\
  occurrences is_usleep (trace (main fuel drv argv)) =
    (if i2cd drv <? 0 then 0%nat else 1%nat) /\
  occurrences is_ip_resolution (trace (main fuel drv argv)) =
    (if i2cd drv <? 0 then 0%nat else 1%nat) /\
  (forall usec, Call_usleep usec ∈ trace (main fuel drv argv) -> usec = 150000).
Proof.
  split; [apply (main_cases (fun p => occurrences is_load_config (trace p) = _));
          intros; count_run|].
  split; [by apply (main_cases (fun p => head (trace p) = _))|].
  split; [apply (main_cases (fun p => occurrences is_begin (trace p) = _));
          intros; count_run|].
  split.
  { apply (main_cases (fun p => _ ∈ trace p)); intros; cbn [trace];
      rewrite !elem_of_app, !elem_of_cons; unfold begin_event; naive_solver. }
  split; [apply (main_cases (fun p => occurrences is_usleep (trace p) = _));
          intros Hi; intros;
          rewrite ?(i2cd_ltb_true _ Hi), ?(i2cd_ltb_false _ Hi); count_run|].
  split; [apply (main_cases (fun p => occurrences is_ip_resolution (trace p) = _));
          intros Hi; intros;
          rewrite ?(i2cd_ltb_true _ Hi), ?(i2cd_ltb_false _ Hi); count_run|].
  intros usec Hin.
  pose proof (main_trace_all
    (fun e => forall u, e = Call_usleep u -> u = 150000) fuel drv argv) as Hall.
  eapply Forall_forall in Hall; [by apply (Hall usec)| | | | | | | | | | |exact Hin];
    try (intros; discriminate).
  - by intros u [= <-].
  - intros [] Hp u [=]; done.
Qed.

(** X4 at the default configuration: the run holds no [usleep(1000)]. *)
Lemma start_up_calls_once_witness :
  Call_usleep 1000 ∉ trace (main 2 (sample_driver None 3) ["display"%string]).
Proof.
  intros H.
  apply (start_up_calls_once 2 (sample_driver None 3) ["display"%string]) in H.
  discriminate H.
Defined.

(** X5. [LCD_DisplayHostname] is called once in a run if [show_hostname] is
    set in the loaded configuration and the I2C device opened, and is not
    called at all otherwise; the count does not grow with the number of
    passes of the loop. *)
Theorem hostname_splash_count fuel drv argv :
  occurrences is_hostname_render (trace (main fuel drv argv)) =
  (if show_hostname (loaded_config drv argv) && (0 <=? i2cd drv)
   then 1%nat else 0%nat).
Proof.
  apply (main_cases (fun p => occurrences is_hostname_render (trace p) = _)).
  - intros Hi. assert ((0 <=? i2cd drv) = false) as -> by (apply Z.leb_gt; lia).
    rewrite andb_false_r. count_run.
  - intros Hi He. apply no_screen_enabled in He. rewrite He.
    cbn [show_hostname andb]. count_run.
  - intros Hi He. assert ((0 <=? i2cd drv) = true) as -> by (by apply Z.leb_le).
    rewrite andb_true_r. count_run.
Qed.

(** ** What is rendered *)

Lemma enabled_screens_range config s : s ∈ enabled_screens config -> 0 <= s <= 3.
Proof.
  unfold enabled_screens. rewrite list_elem_of_In, filter_In. simpl. lia.
Qed.

Lemma renders_elem t s : s ∈ renders t <-> Call_LCD_Display s ∈ t.
Proof.
  unfold renders. rewrite list_elem_of_omap. split.
  - intros ([] & Hin & Heq); try discriminate. by injection Heq as ->.
  - intros Hin. by exists (Call_LCD_Display s).
Qed.

Lemma main_rotating_renders fuel drv argv :
  0 <= i2cd drv -> enabled_screens (loaded_config drv argv) <> [] ->
  renders (trace (main fuel drv argv)) =
  renders (passes (enabled_screens (loaded_config drv argv)) 0 fuel).
Proof.
  intros Hi He. rewrite (main_rotating fuel drv argv Hi He). cbn [trace].
  by rewrite !app_assoc, renders_app, <- !app_assoc, renders_startup, app_nil_l.
Qed.

(** X6. [LCD_Display] is only ever called with a screen whose flag is set
    in the loaded configuration, hence with 0, 1, 2 or 3.  When the I2C
    device opened and some screen is enabled, a run of [fuel] passes makes
    exactly [fuel] such calls, and call number [k] shows entry [k mod n] of
    the list of enabled screens; when the device did not open or no screen
    is enabled, there is no such call. *)
Theorem renders_follow_configuration fuel drv argv :
  let config := loaded_config drv argv in
  let l := enabled_screens config in
  (forall s, s ∈ renders (trace (main fuel drv argv)) ->
     screen_enabled config s = true /\ 0 <= s <= 3) /\
  (0 <= i2cd drv -> l <> [] ->
     length (renders (trace (main fuel drv argv))) = fuel /\
     forall k, (k < fuel)%nat ->
       renders (trace (main fuel drv argv)) !! k = l !! (k mod length l)%nat) /\
  (i2cd drv < 0 \/ l = [] -> renders (trace (main fuel drv argv)) = []).
Proof.
  intros config l. split; [|split].
  - intros s Hs. apply renders_elem in Hs.
    assert (s ∈ l) as Hl.
    { pose proof (main_trace_all
        (fun e => forall s', e = Call_LCD_Display s' -> s' ∈ l) fuel drv argv) as Hall.
      eapply Forall_forall in Hall; [by apply (Hall s)| | | | | | | | | | |exact Hs];
        try (intros; discriminate).
      intros [] Hp s' [=]. by subst. }
    split; [by apply enabled_screens_elem|by eapply enabled_screens_range].
  - intros Hi He. rewrite (main_rotating_renders fuel drv argv Hi He).
    pose proof (nonempty_length _ He).
    split; [by apply passes_renders_length|].
    intros k Hk. by apply passes_render_at.
  - intros [Hi|He].
    + rewrite (main_i2c_failed fuel drv argv Hi). cbn [trace].
      unfold load_events.
      destruct (load_ok drv argv), (loaded_config drv argv) as [[] [] [] []];
        reflexivity.
    + destruct (Z.lt_ge_cases (i2cd drv) 0) as [Hi|Hi].
      * rewrite (main_i2c_failed fuel drv argv Hi). cbn [trace].
        unfold load_events.
        destruct (load_ok drv argv), (loaded_config drv argv) as [[] [] [] []];
          reflexivity.
      * rewrite (main_idle fuel drv argv Hi He). cbn [trace].
        unfold load_events. by destruct (load_ok drv argv).
Qed.

(** X6 at a loader that enables cpu_memory and hostname. *)
Lemma renders_follow_configuration_witness :
  renders (trace (main 5 (sample_driver (Some (mkDisplayConfig false true false true)) 3)
                       ["display"%string])) !! 2%nat = Some 1 /\
  renders (trace (main 5 (sample_driver (Some (mkDisplayConfig false true false true)) (-1))
                       ["display"%string])) = [].
Proof.
  split.
  - destruct (renders_follow_configuration 5
      (sample_driver (Some (mkDisplayConfig false true false true)) 3)
      ["display"%string]) as (_ & Hrun & _).
    destruct Hrun as [_ Hk]; [vm_compute; discriminate|discriminate|].
    apply (Hk 2%nat). lia.
  - destruct (renders_follow_configuration 5
      (sample_driver (Some (mkDisplayConfig false true false true)) (-1))
      ["display"%string]) as (_ & _ & Hnone).
    apply Hnone. left. reflexivity.
Defined.

Lemma cursor_reaches (n i k : nat) :
  (i < n)%nat -> exists j, (j < n)%nat /\ ((k + j) mod n = i)%nat.
Proof.
  intros Hi.
  pose proof (Nat.div_mod_eq k n) as Hk.
  pose proof (Nat.mod_upper_bound k n) as Hr.
  destruct (le_lt_dec (k mod n) i) as [Hle|Hlt].
  - exists (i - k mod n)%nat. split; [lia|].
    replace (k + (i - k mod n))%nat with (i + (k / n) * n)%nat by lia.
    rewrite Nat.Div0.mod_add. by apply Nat.mod_small.
  - exists (i + n - k mod n)%nat. split; [lia|].
    replace (k + (i + n - k mod n))%nat with (i + (S (k / n)) * n)%nat by lia.
    rewrite Nat.Div0.mod_add. by apply Nat.mod_small.
Qed.

(** X7. No enabled screen is starved.  When the I2C device opened, every
    screen whose flag is set is rendered in any stretch of [n] consecutive
    passes of the loop, [n] being the number of enabled screens, so in any
    stretch of four. *)
Theorem every_enabled_screen_recurs fuel drv argv s k :
  let config := loaded_config drv argv in
  let n := length (enabled_screens config) in
  0 <= i2cd drv -> screen_enabled config s = true -> (k + n <= fuel)%nat ->
  (n <= 4)%nat /\
  exists j, (j < n)%nat /\ renders (trace (main fuel drv argv)) !! (k + j)%nat = Some s.
Proof.
  intros config n Hi Hs Hk.
  split; [apply enabled_screens_length|].
  apply enabled_screens_elem, list_elem_of_lookup in Hs as [i Hlook].
  pose proof (lookup_lt_Some _ _ _ Hlook) as Hlt. fold config n in Hlt.
  assert (enabled_screens config <> []) as He by (intros E; by rewrite E in Hlook).
  destruct (cursor_reaches n i k Hlt) as (j & Hj & Hmod).
  exists j. split; [done|].
  rewrite (main_rotating_renders fuel drv argv Hi He).
  rewrite passes_render_at by (fold config n; lia).
  fold config n. by rewrite Hmod.
Qed.

(** X7 with three screens enabled: screen 2 shows up among passes 4, 5, 6. *)
Lemma every_enabled_screen_recurs_witness :
  exists j, (j < 3)%nat /\
    renders (trace (main 9 (sample_driver (Some (mkDisplayConfig true false true true)) 3)
                         ["display"%string])) !! (4 + j)%nat = Some 2.
Proof.
  refine (proj2 (every_enabled_screen_recurs 9
    (sample_driver (Some (mkDisplayConfig true false true true)) 3)
    ["display"%string] 2 4 _ _ _)).
  - vm_compute. discriminate.
  - reflexivity.
  - vm_compute. lia.
Defined.

(** ** When it is rendered *)

Lemma render_times_app t1 t2 now :
  render_times now (t1 ++ t2) =
  render_times now t1 ++ render_times (now + elapsed_usec t1) t2.
Proof. unfold render_times. by rewrite timeline_app, omap_app. Qed.

Lemma startup_timing drv argv config :
  let startup := load_events drv argv ++ store_events config ++
                 [begin_event drv; Call_usleep 150000; Call_FirstGetIpAddress] ++
                 splash_events config in
  render_times 0 startup = [] /\
  elapsed_usec startup = 150000 + (if show_hostname config then 3000000 else 0).
Proof.
  unfold load_events, splash_events.
  destruct (load_ok drv argv), config as [[] [] [] []]; split; reflexivity.
Qed.

(** X8. On the clock of C8, started when [main] starts: if the I2C device
    opened and some screen is enabled, the first [LCD_Display] call happens
    0.15 s into the run, or 3.15 s into it when the hostname splash is shown,
    and call number [k] happens exactly [3 k] seconds after the first. *)
Theorem render_schedule fuel drv argv :
  let config := loaded_config drv argv in
  0 <= i2cd drv -> enabled_screens config <> [] ->
  render_times 0 (trace (main fuel drv argv)) =
  (fun k => 150000 + (if show_hostname config then 3000000 else 0)
            + 3000000 * Z.of_nat k) <$> seq 0 fuel.
Proof.
  intros config Hi He.
  rewrite (main_rotating fuel drv argv Hi He). cbn [trace]. fold config.
  destruct (startup_timing drv argv config) as [Hnone Htime].
  rewrite !app_assoc, render_times_app, <- !app_assoc, Hnone, Htime, app_nil_l.
  rewrite passes_render_times by (by apply nonempty_length).
  apply list_fmap_ext. intros _ k _. simpl. lia.
Qed.

(** X8 at the hostname screen alone: renders at 3.15 s, 6.15 s, 9.15 s. *)
Lemma render_schedule_witness :
  render_times 0
    (trace (main 3 (sample_driver (Some (mkDisplayConfig false false false true)) 3)
                 ["display"%string])) = [3150000; 6150000; 9150000].
Proof.
  apply (render_schedule 3
    (sample_driver (Some (mkDisplayConfig false false false true)) 3)
    ["display"%string]).
  - vm_compute. discriminate.
  - discriminate.
Defined.

(** ** Longer runs *)

Lemma passes_extend l i fuel extra :
  passes l i fuel `prefix_of` passes l i (fuel + extra).
Proof.
  induction extra as [|extra IH].
  - by rewrite Nat.add_0_r.
  - rewrite Nat.add_succ_r, passes_back. by apply prefix_app_r.
Qed.

(** X9. The budget of passes only cuts a run short, it never changes it.
    The trace of a run with a larger budget extends the trace with a smaller
    one; a run that has returned is the same under every larger budget; and a
    run that is still in the loop gets, from one more pass, exactly five more
    events: a read of [display_order], a render of the value read, and three
    [sleep(1)]. *)
Theorem longer_runs_extend fuel extra drv argv :
  trace (main fuel drv argv) `prefix_of` trace (main (fuel + extra) drv argv) /\
  (forall code, outcome (main fuel drv argv) = Return code ->
     main (fuel + extra) drv argv = main fuel drv argv) /\
  (outcome (main fuel drv argv) = OutOfFuel ->
     exists i s,
       trace (main (S fuel) drv argv) =
       trace (main fuel drv argv) ++
       [Load_display_order i; Call_LCD_Display s;
        Call_sleep 1; Call_sleep 1; Call_sleep 1]).
Proof.
  destruct (Z.lt_ge_cases (i2cd drv) 0) as [Hi|Hi].
  { rewrite !(main_i2c_failed _ drv argv Hi). cbn [trace outcome].
    split; [done|]. split; [done|discriminate]. }
  destruct (decide (enabled_screens (loaded_config drv argv) = [])) as [He|He].
  { rewrite !(main_idle _ drv argv Hi He). cbn [trace outcome].
    split; [done|]. split; [done|discriminate]. }
  rewrite !(main_rotating _ drv argv Hi He). cbn [trace outcome].
  split; [|split; [discriminate|]].
  - do 4 apply prefix_app. apply passes_extend.
  - intros _. rewrite passes_back.
    destruct (pass_trace_eq (enabled_screens (loaded_config drv argv)) (0 + fuel))
      as (s & _ & ->); [by apply nonempty_length|].
    eexists _, s. by rewrite <- !app_assoc.
Qed.

(** X9 at the default configuration: the sixth pass reads cell 1 and renders
    screen 1. *)
Lemma longer_runs_extend_witness :
  exists i s,
    trace (main 6 (sample_driver None 3) ["display"%string]) =
    trace (main 5 (sample_driver None 3) ["display"%string]) ++
    [Load_display_order i; Call_LCD_Display s;
     Call_sleep 1; Call_sleep 1; Call_sleep 1].
Proof.
  destruct (longer_runs_extend 5 0 (sample_driver None 3) ["display"%string])
    as (_ & _ & Hmore).
  apply Hmore. reflexivity.
Defined.

(** ** The debug flag and the rest of the run *)

(** X10. [main] uses [debug] for one thing only, the third argument of
    [load_display_config].  If the loader's status and the configuration it
    leaves do not depend on that argument, then two runs with any two
    argument vectors end the same way and differ at most in their first
    event. *)
Theorem debug_only_reaches_loader fuel drv argv argv' :
  (forall path config,
     load_display_config drv path config true =
     load_display_config drv path config false) ->
  outcome (main fuel drv argv) = outcome (main fuel drv argv') /\
  tail (trace (main fuel drv argv)) = tail (trace (main fuel drv argv')).
Proof.
  intros Hind.
  assert (forall d d', load_display_config drv config_path default_config d =
                       load_display_config drv config_path default_config d') as Hsame.
  { intros [] []; by rewrite ?Hind. }
  assert (load_ok drv argv = load_ok drv argv') as Hok
    by (unfold load_ok; by rewrite (Hsame _ (debug_flag argv'))).
  assert (loaded_config drv argv = loaded_config drv argv') as Hcfg
    by (unfold loaded_config; by rewrite (Hsame _ (debug_flag argv'))).
  destruct (Z.lt_ge_cases (i2cd drv) 0) as [Hi|Hi].
  { rewrite !(main_i2c_failed fuel drv _ Hi). cbn [trace outcome].
    unfold load_events. simpl. by rewrite Hok, Hcfg. }
  destruct (decide (enabled_screens (loaded_config drv argv) = [])) as [He|He].
  - pose proof He as He'. rewrite Hcfg in He'.
    rewrite (main_idle fuel drv argv Hi He), (main_idle fuel drv argv' Hi He').
    cbn [trace outcome]. unfold load_events. simpl. by rewrite Hok.
  - pose proof He as He'. rewrite Hcfg in He'.
    rewrite (main_rotating fuel drv argv Hi He), (main_rotating fuel drv argv' Hi He').
    cbn [trace outcome]. unfold load_events. simpl. by rewrite Hok, Hcfg.
Qed.

(** X10 at the sample driver, whose loader ignores the flag. *)
Lemma debug_only_reaches_loader_witness :
  tail (trace (main 2 (sample_driver None 3) ["display"; "--debug"]%string)) =
  tail (trace (main 2 (sample_driver None 3) ["display"]%string)).
Proof.
  refine (proj2 (debug_only_reaches_loader 2 (sample_driver None 3)
                   ["display"; "--debug"]%string ["display"]%string _)).
  reflexivity.
Defined.

(** X11. The program name is never examined and the scan composes: for a
    non-empty [argv] followed by further arguments the flag is the flag of
    [argv] or-ed with whether one of the further arguments is "-d" or
    "--debug", so an argument that sets the flag cannot be undone by a later
    one.  With no arguments after the program name, or with an empty [argv],
    the flag is false, whatever the program is called. *)
Theorem debug_flag_compose arg0 args more :
  debug_flag ((arg0 :: args) ++ more) =
    debug_flag (arg0 :: args) || existsb is_debug_arg more /\
  (forall arg0', debug_flag (arg0' :: args) = debug_flag (arg0 :: args)) /\
  debug_flag [arg0] = false /\
  debug_flag [] = false /\
  (debug_flag (arg0 :: args) = true -> debug_flag ((arg0 :: args) ++ more) = true).
Proof.
  assert (debug_flag ((arg0 :: args) ++ more) =
          debug_flag (arg0 :: args) || existsb is_debug_arg more) as Happ.
  { rewrite !debug_flag_existsb. simpl. rewrite !drop_0. apply existsb_app. }
  split; [done|]. split; [done|]. split; [done|]. split; [done|].
  intros H. by rewrite Happ, H.
Qed.

(** X11 with a program called "-d": its name does not set the flag, a later
    "-d" does, and "-q" after it does not clear it. *)
Lemma debug_flag_compose_witness :
  debug_flag (["-d"%string; "-d"%string] ++ ["-q"%string]) = true /\
  debug_flag ["-d"%string] = false.
Proof.
  destruct (debug_flag_compose "-d"%string ["-d"%string] ["-q"%string])
    as (_ & _ & Hname & _ & Hkeep).
  split; [apply Hkeep; reflexivity|].
  apply (debug_flag_compose "-d"%string [] []).
Defined.

(** ** The rotation list as a code for the flags *)

(** X12. Lines 25-28 lose nothing of the configuration: [display_count]
    ends as the number of flags that are set, and two configurations that
    leave the same [display_order] and [display_count] have the same four
    flags. *)
Theorem rotation_list_determines_flags config :
  (exists a,
     outcome (build_display_order config) =
     Next (a, Z.b2z (show_temperature config) + Z.b2z (show_cpu_memory config) +
              Z.b2z (show_sd_memory config) + Z.b2z (show_hostname config))) /\
  (forall config',
     outcome (build_display_order config') = outcome (build_display_order config) ->
     config' = config).
Proof.
  split.
  - destruct config as [[] [] [] []]; by eexists.
  - intros config'.
    destruct config as [[] [] [] []], config' as [[] [] [] []];
      intros H; (reflexivity || discriminate H).
Qed.

(** X12 at the configuration with temperature and sd_memory set. *)
Lemma rotation_list_determines_flags_witness :
  mkDisplayConfig true false true false = mkDisplayConfig true false true false.
Proof.
  destruct (rotation_list_determines_flags (mkDisplayConfig true false true false))
    as [_ Hinj].
  apply Hinj. reflexivity.
Defined.
